(** * Learning-rate schedulers, the net life cycle and the probit likelihood

    A shallow embedding of

    - [skorch/callbacks/lr_scheduler.py]: [WarmRestartLR] and [CyclicLR];
    - [gpytorch/likelihoods/bernoulli_likelihood.py]: [BernoulliLikelihood];
    - the parts of [skorch/net.py] that [skorch/tests/test_net.py] exercises.

    Number model.  Python floats are idealised as exact numbers: rationals
    ([Q]) wherever the code only uses field operations, [floor], [abs] and
    integer powers (so the cyclic schedule stays executable), and reals
    ([R]) where [cos], [pi] or [sqrt] enter.  Rounding, overflow and NaN
    are outside the model.  Python exceptions are values of [exn]. *)

From Stdlib Require Import ZArith QArith Qround Qabs Qminmax Qpower Lqa Lia.
From Stdlib Require Import Reals Lra Qreals.
From Stdlib Require Import DecimalString.
From stdpp Require Import base option gmap strings list.

Close Scope Q_scope.
Close Scope R_scope.
Open Scope string_scope.

(** ** Python exceptions and results *)

Inductive exn : Type :=
| ValueError (msg : string)
| TypeError (msg : string)
| AttributeError (msg : string)
| RuntimeError (msg : string)
| NotInitializedError (msg : string)
| FileNotFoundError (msg : string)
| ZeroDivisionError.

Inductive result (A : Type) : Type :=
| Ok (a : A)
| Raise (e : exn).

Arguments Ok {A} a.
Arguments Raise {A} e.

#[global] Instance result_ret : MRet result := fun A a => Ok a.
#[global] Instance result_bind : MBind result := fun A B f m =>
  match m with
  | Ok a => f a
  | Raise e => Raise e
  end.

(** [x is None] *)
Definition is_None {A} (x : option A) : bool :=
  match x with None => true | Some _ => false end.

Definition is_ok {A} (r : result A) : bool :=
  match r with Ok _ => true | Raise _ => false end.

(** [str(n)] for a non-negative count, as [str.format] prints it. *)
Definition str_of_nat (n : nat) : string :=
  NilEmpty.string_of_uint (Nat.to_uint n).

(** [", ".join(names)] *)
Fixpoint join (sep : string) (names : list string) : string :=
  match names with
  | [] => ""
  | [s] => s
  | s :: rest => s ++ sep ++ join sep rest
  end.

(** ** The optimizer and the object store

    A parameter group is a Python dict; the numeric entries are what the
    schedulers touch.  The optimizer is shared between the caller and the
    scheduler, so it lives in a store and is passed by reference. *)

Abbreviation param_group := (gmap string Q).

Record Optimizer : Type := { param_groups : list param_group }.

Inductive pyobj : Type :=
| PyOptimizer (o : Optimizer)
| PyObject (type_name : string).

Abbreviation loc := positive.
Abbreviation store := (gmap loc pyobj).

(** A reference the store does not bind denotes [None]. *)
Definition deref (h : store) (l : loc) : pyobj :=
  default (PyObject "NoneType") (h !! l).

(** Computations that read and write the store and may raise. *)
Definition M (A : Type) : Type := store -> result A * store.

#[global] Instance M_ret : MRet M := fun A a h => (Ok a, h).
#[global] Instance M_bind : MBind M := fun A B f m h =>
  match m h with
  | (Ok a, h') => f a h'
  | (Raise e, h') => (Raise e, h')
  end.

Definition lift {A} (r : result A) : M A := fun h => (r, h).
Definition raise {A} (e : exn) : M A := fun h => (Raise e, h).
Definition load (l : loc) : M pyobj := fun h => (Ok (deref h l), h).
Definition store_at (l : loc) (o : pyobj) : M unit :=
  fun h => (Ok tt, <[l := o]> h).

(** ** Float operations that raise *)

(** [a / b] on Python floats. *)
Definition py_div (a b : Q) : result Q :=
  if Qeq_bool b 0 then Raise ZeroDivisionError else Ok (a / b)%Q.

(** [b ** n] for a Python float [b] and an integer [n]. *)
Definition py_pow (b : Q) (n : Z) : result Q :=
  if Qeq_bool b 0 && (n <? 0)%Z then Raise ZeroDivisionError
  else Ok (b ^ n)%Q.

(** ** Per-group learning rates: [_format_lr]

    Both schedulers carry the same method; it is generic in the number
    type.  [np.ones(n)] is [repeat one n], [lr * np.ones(n)] multiplies
    each entry, [np.array(lr)] keeps the sequence. *)

Inductive lr_arg (A : Type) : Type :=
| Scalar (x : A)
| Sequence (xs : list A).

Arguments Scalar {A} x.
Arguments Sequence {A} xs.

Definition length_mismatch (expected : nat) (name : string) (got : nat)
  : string :=
  "expected " ++ str_of_nat expected ++ " values for " ++ name
    ++ ", got " ++ str_of_nat got.

Section format_lr.
Context {A : Type} (mul : A -> A -> A) (one : A).

Definition np_ones (n : nat) : list A := repeat one n.

Definition _format_lr (name : string) (optimizer : Optimizer)
    (lr : lr_arg A) : result (list A) :=
  match lr with
  | Sequence xs =>
      if negb (length xs =? length (param_groups optimizer))%nat then
        Raise (ValueError (length_mismatch
                 (length (param_groups optimizer)) name (length xs)))
      else Ok xs
  | Scalar x =>
      Ok (map (mul x) (np_ones (length (param_groups optimizer))))
  end.
End format_lr.

(** ** [CyclicLR] *)

Module CyclicLR.

(** The bound scale function: one of the three methods, or the
    caller's own.  It is applied to the cycle number or to the batch
    index, both integers. *)
Inductive scale_function : Type :=
| _triangular_scale_fn
| _triangular2_scale_fn
| _exp_range_scale_fn
| custom_scale_fn (f : Z -> Q).

Record t : Type := {
  optimizer : loc;
  base_lrs : list Q;
  max_lrs : list Q;
  step_size : Z;
  mode : string;
  gamma : Q;
  scale_fn : scale_function;
  scale_mode : string;
  last_batch_idx : Z
}.

Definition set_last_batch_idx (self : t) (idx : Z) : t :=
  {| optimizer := optimizer self; base_lrs := base_lrs self;
     max_lrs := max_lrs self; step_size := step_size self;
     mode := mode self; gamma := gamma self; scale_fn := scale_fn self;
     scale_mode := scale_mode self; last_batch_idx := idx |}.

Definition call_scale_fn (self : t) (x : Z) : result Q :=
  match scale_fn self with
  | _triangular_scale_fn => Ok 1%Q
  | _triangular2_scale_fn => Ok (1 / (2 ^ (x - 1)))%Q
  | _exp_range_scale_fn => py_pow (gamma self) x
  | custom_scale_fn f => Ok (f x)
  end.

Definition get_lr (self : t) : result (list Q) :=
  let step_size := inject_Z (step_size self) in
  let idx := last_batch_idx self in
  q ← py_div (inject_Z idx) (2 * step_size)%Q;
  let cycle := Qfloor (1 + q)%Q in
  q' ← py_div (inject_Z idx) step_size;
  let x := Qabs (q' - 2 * inject_Z cycle + 1)%Q in
  mapM (fun '(base_lr, max_lr) =>
          let base_height := ((max_lr - base_lr) * Qmax 0 (1 - x))%Q in
          if String.eqb (scale_mode self) "cycle" then
            s ← call_scale_fn self cycle;
            Ok (base_lr + base_height * s)%Q
          else
            s ← call_scale_fn self idx;
            Ok (base_lr + base_height * s)%Q)
       (zip (base_lrs self) (max_lrs self)).

(** [for param_group, lr in zip(groups, lrs): param_group['lr'] = lr] *)
Fixpoint set_lrs (groups : list param_group) (lrs : list Q)
  : list param_group :=
  match groups, lrs with
  | g :: groups', lr :: lrs' => <["lr" := lr]> g :: set_lrs groups' lrs'
  | _, _ => groups
  end.

Definition step (self : t) (epoch : option Z) : M t := mret self.

Definition batch_step (self : t) (batch_idx : option Z) : M t :=
  let batch_idx :=
    match batch_idx with
    | None => (last_batch_idx self + 1)%Z
    | Some b => b
    end in
  let self := set_last_batch_idx self batch_idx in
  o ← load (optimizer self);
  match o with
  | PyObject ty =>
      raise (AttributeError
               ("'" ++ ty ++ "' object has no attribute 'param_groups'"))
  | PyOptimizer opt =>
      lrs ← lift (get_lr self);
      _ ← store_at (optimizer self)
            (PyOptimizer {| param_groups := set_lrs (param_groups opt) lrs |});
      mret self
  end.

Definition builtin_modes : list string :=
  ["triangular"; "triangular2"; "exp_range"].

Definition __init__ (optimizer : loc) (base_lr max_lr : lr_arg Q)
    (step_size : Z) (mode : string) (gamma : Q)
    (scale_fn : option (Z -> Q)) (scale_mode : string)
    (last_batch_idx : Z) : M t :=
  o ← load optimizer;
  match o with
  | PyObject ty => raise (TypeError (ty ++ " is not an Optimizer"))
  | PyOptimizer opt =>
      base_lrs ← lift (_format_lr Qmult 1%Q "base_lr" opt base_lr);
      max_lrs ← lift (_format_lr Qmult 1%Q "max_lr" opt max_lr);
      if negb (bool_decide (mode ∈ builtin_modes)) && is_None scale_fn
      then raise (ValueError "mode is invalid and scale_fn is None")
      else
        let '(fn, sm) :=
          match scale_fn with
          | None =>
              if String.eqb mode "triangular" then
                (_triangular_scale_fn, "cycle")
              else if String.eqb mode "triangular2" then
                (_triangular2_scale_fn, "cycle")
              else (_exp_range_scale_fn, "iterations")
          | Some f => (custom_scale_fn f, scale_mode)
          end in
        (* [last_batch_idx] is not yet an attribute here; [batch_step]
           assigns it before anything reads it. *)
        let self :=
          {| optimizer := optimizer; base_lrs := base_lrs;
             max_lrs := max_lrs; step_size := step_size; mode := mode;
             gamma := gamma; scale_fn := fn; scale_mode := sm;
             last_batch_idx := last_batch_idx |} in
        self ← batch_step self (Some (last_batch_idx + 1)%Z);
        mret (set_last_batch_idx self last_batch_idx)
  end.

(** *** Notions used to state the properties of the schedule *)

(** The cycle number and the position [x] in the cycle that [get_lr]
    computes from the stored batch index. *)
Definition cycle (self : t) : Z :=
  Qfloor (1 + inject_Z (last_batch_idx self)
                / (2 * inject_Z (step_size self)))%Q.

Definition position (self : t) : Q :=
  Qabs (inject_Z (last_batch_idx self) / inject_Z (step_size self)
        - 2 * inject_Z (cycle self) + 1)%Q.

(** The argument that [get_lr] hands to the scale function. *)
Definition scale_argument (self : t) : Z :=
  if String.eqb (scale_mode self) "cycle" then cycle self
  else last_batch_idx self.

(** The three built-in modes: what [__init__] binds for each when no
    scale function is given. *)
Inductive built_in : string -> scale_function -> string -> Prop :=
| built_in_triangular :
    built_in "triangular" _triangular_scale_fn "cycle"
| built_in_triangular2 :
    built_in "triangular2" _triangular2_scale_fn "cycle"
| built_in_exp_range :
    built_in "exp_range" _exp_range_scale_fn "iterations".

Definition in_mode (m : string) (self : t) : Prop :=
  built_in m (scale_fn self) (scale_mode self).

(** The triangular wave scaled by [gamma ^ n], entry by entry. *)
Definition scaled_wave (self : t) (n : Z) : list Q :=
  map (fun '(base_lr, max_lr) =>
         (base_lr
          + (max_lr - base_lr) * Qmax 0 (1 - position self)
            * gamma self ^ n)%Q)
      (zip (base_lrs self) (max_lrs self)).

(** Amplitude decay by the cycle number, and by the batch index. *)
Definition exp_range_by_cycle (self : t) : list Q :=
  scaled_wave self (cycle self).

Definition exp_range_by_index (self : t) : list Q :=
  scaled_wave self (last_batch_idx self).

(** The methods a caller can invoke on a constructed scheduler. *)
Inductive method : Type :=
| call_step (epoch : option Z)
| call_batch_step (batch_idx : option Z)
| call_get_lr
| call_format_lr (name : string) (opt : Optimizer) (lr : lr_arg Q)
| call_scale (x : Z).

Definition invoke (m : method) (self : t) : M t :=
  match m with
  | call_step epoch => step self epoch
  | call_batch_step batch_idx => batch_step self batch_idx
  | call_get_lr => _ ← lift (get_lr self); mret self
  | call_format_lr name opt lr =>
      _ ← lift (_format_lr Qmult 1%Q name opt lr); mret self
  | call_scale x => _ ← lift (call_scale_fn self x); mret self
  end.

(** The [lr] entries of the optimizer behind a reference. *)
Definition learning_rates (h : store) (l : loc) : list (option Q) :=
  match deref h l with
  | PyOptimizer opt =>
      map (fun g : param_group => g !! "lr") (param_groups opt)
  | PyObject _ => []
  end.

End CyclicLR.

(** ** [WarmRestartLR]

    The scheduler derives from the framework's [_LRScheduler].  Of the
    base-class initialiser the model keeps the stored epoch index, which
    is the only attribute of the base class that [get_lr] reads. *)

(** [a op b] on one-dimensional numpy arrays: equal shapes combine
    entry by entry, a one-entry array is stretched, anything else is a
    shape error. *)
Definition np_broadcast {A} (op : A -> A -> A) (a b : list A)
  : result (list A) :=
  if (length a =? length b)%nat then Ok (zip_with op a b)
  else match a, b with
       | [x], _ => Ok (map (op x) b)
       | _, [y] => Ok (map (fun x => op x y) a)
       | _, _ =>
           Raise (ValueError
                    ("operands could not be broadcast together with shapes ("
                       ++ str_of_nat (length a) ++ ",) ("
                       ++ str_of_nat (length b) ++ ",) "))
       end.

Module WarmRestartLR.

Record t : Type := {
  min_lr : list R;
  max_lr : list R;
  base_period : Z;
  period_mult : Z;
  last_epoch : Z
}.

Definition __init__ (optimizer : Optimizer) (min_lr max_lr : lr_arg R)
    (base_period period_mult last_epoch : Z) : result t :=
  min_lr ← _format_lr Rmult 1%R "min_lr" optimizer min_lr;
  max_lr ← _format_lr Rmult 1%R "max_lr" optimizer max_lr;
  Ok {| min_lr := min_lr; max_lr := max_lr; base_period := base_period;
        period_mult := period_mult; last_epoch := last_epoch |}.

(** [self.last_epoch = epoch], as the base class's [step] assigns it. *)
Definition set_last_epoch (self : t) (epoch : Z) : t :=
  {| min_lr := min_lr self; max_lr := max_lr self;
     base_period := base_period self; period_mult := period_mult self;
     last_epoch := epoch |}.

Definition _get_current_lr (min_lr max_lr : list R) (period epoch : Q)
  : result (list R) :=
  d ← np_broadcast Rminus max_lr min_lr;
  let half := map (Rmult 0.5%R) d in
  if Qeq_bool period 0 then Raise ZeroDivisionError
  else
    let c := (1 + cos (Q2R epoch * PI / Q2R period))%R in
    np_broadcast Rplus min_lr (map (fun a => (a * c)%R) half).

(** The [while] loop of [get_lr], with fuel; [None] is "still
    running". *)
Fixpoint restart_loop (fuel : nat) (period_mult : Z)
    (epoch_idx current_period : Q) : option (result (Q * Q)) :=
  match fuel with
  | O => None
  | S fuel' =>
      if Qeq_bool current_period 0 then Some (Raise ZeroDivisionError)
      else if Qlt_le_dec 1 (epoch_idx / current_period) then
        restart_loop fuel' period_mult
          (epoch_idx - (current_period + 1))%Q
          (current_period * inject_Z period_mult)%Q
      else Some (Ok (epoch_idx, current_period))
  end.

Definition get_lr (fuel : nat) (self : t) : option (result (list R)) :=
  let epoch_idx := inject_Z (last_epoch self) in
  let current_period := inject_Z (base_period self) in
  match restart_loop fuel (period_mult self) epoch_idx current_period with
  | None => None
  | Some (Raise e) => Some (Raise e)
  | Some (Ok (epoch_idx, current_period)) =>
      Some (_get_current_lr (min_lr self) (max_lr self)
              current_period epoch_idx)
  end.

(** *** The schedule in the words of the specification *)

(** Start from [P = base_period]; while the remaining index divided
    by [P] exceeds 1, subtract [P + 1] from the index and multiply [P]
    by [period_mult]. *)
Inductive reduces (period_mult : Z) : Q * Q -> Q * Q -> Prop :=
| reduces_stop e P :
    ~ (1 < e / P)%Q -> reduces period_mult (e, P) (e, P)
| reduces_restart e P r :
    (1 < e / P)%Q ->
    reduces period_mult (e - (P + 1), P * inject_Z period_mult)%Q r ->
    reduces period_mult (e, P) r.

(** [min_lr + 0.5*(max_lr - min_lr)*(1 + cos(e*pi/P))] *)
Definition half_cosine (min_lr max_lr : R) (e P : Q) : R :=
  (min_lr + 0.5 * (max_lr - min_lr) * (1 + cos (Q2R e * PI / Q2R P)))%R.

(** The index at which the [n]-th period starts: every earlier period
    [base_period * period_mult ^ i] contributes its length plus one. *)
Fixpoint period_start (base_period period_mult : Z) (n : nat) : Z :=
  match n with
  | O => 0
  | S n' =>
      (period_start base_period period_mult n'
         + (base_period * period_mult ^ Z.of_nat n' + 1))%Z
  end.

End WarmRestartLR.

(** ** [BernoulliLikelihood] *)

Module BernoulliLikelihood.

Abbreviation Tensor := (list R).

(** What [forward] may be handed.  A Gaussian random variable over [n]
    latent values carries a mean and a variance for each of them, so
    [mean()] and [var()] always have the same shape. *)
Inductive pyvalue : Type :=
| GaussianRandomVariable (marginals : list (R * R))
| BernoulliRandomVariable (probs : Tensor)
| OtherObject (type_name : string).

Definition mean (marginals : list (R * R)) : Tensor := map fst marginals.
Definition var (marginals : list (R * R)) : Tensor := map snd marginals.

Definition isinstance_Gaussian (input : pyvalue) : bool :=
  match input with
  | GaussianRandomVariable _ => true
  | _ => false
  end.

Definition expects_gaussian : string :=
  join " " ["BernoulliLikelihood expects a Gaussian";
            "distributed latent function to make predictions"].

Section forward.
(** [normal_cdf] of [gpytorch.functions] applies the standard normal
    distribution function [Phi] to every entry. *)
Variable Phi : R -> R.

Definition normal_cdf (x : Tensor) : Tensor := map Phi x.

Definition forward (input : pyvalue) : result pyvalue :=
  match input with
  | GaussianRandomVariable marginals =>
      let mean := mean marginals in
      let var := var marginals in
      let link := zip_with Rdiv mean (map sqrt (map (Rplus 1) var)) in
      let output_probs := normal_cdf link in
      Ok (BernoulliRandomVariable output_probs)
  | _ => Raise (RuntimeError expects_gaussian)
  end.
End forward.

End BernoulliLikelihood.

(** ** The net: construction, fitting and checkpoints

    [skorch/net.py] is not among the sources; only its tests are.  The
    definitions of this module follow the specification and the observable
    behaviour that [skorch/tests/test_net.py] pins down. *)

Module NeuralNet.

(** Modelled from the spec: the values that the flat configuration of
    [skorch/net.py] holds under its string keys. *)
Inductive pyval : Type :=
| VBool (b : bool)
| VInt (n : Z)
| VFloat (q : Q)
| VStr (s : string)
| VObj (name : string).

Abbreviation Tensor := (list Q).
Abbreviation Params := (list Tensor).
Abbreviation Epoch := (gmap string Q).
Abbreviation Files := (gmap string Params).

(** Modelled from the spec: the estimator object of [skorch/net.py].
    It holds its flat configuration, whether it has been initialized,
    the parameters of the wrapped module, the history (one record per
    epoch) and the state of the random generator that module
    construction draws from. *)
Record t : Type := {
  config : gmap string pyval;
  initialized_ : bool;
  module_ : Params;
  history : list Epoch;
  seed : nat
}.

(** Modelled from the spec: the [warm_start] setting of
    [skorch/net.py], off unless configured. *)
Definition warm_start (net : t) : bool :=
  match config net !! "warm_start" with
  | Some (VBool b) => b
  | _ => false
  end.

(** Modelled from the spec: the [max_epochs] setting of
    [skorch/net.py]; the tests observe ten epochs by default. *)
Definition max_epochs (net : t) : nat :=
  match config net !! "max_epochs" with
  | Some (VInt n) => Z.to_nat n
  | _ => 10
  end.

(** Modelled from the spec: assignment to a configuration attribute,
    as in [net.max_epochs = 0]. *)
Definition setattr (net : t) (name : string) (v : pyval) : t :=
  {| config := <[name := v]> (config net);
     initialized_ := initialized_ net; module_ := module_ net;
     history := history net; seed := seed net |}.

(** Modelled from the spec: the message of the aggregated error for
    unknown constructor keywords, as [test_net_init_two_unknown_argument]
    expects it. *)
Definition unexpected_arguments (names : list string) : string :=
  "__init__() got unexpected argument(s) " ++ join ", " names ++ "."
    ++ "Either you made a typo, or you added new arguments "
    ++ "in a subclass; if that is the case, the subclass "
    ++ "should deal with the new arguments explicitely.".

(** Modelled from the spec: the messages of the "not initialized"
    error of [save_params] and [load_params]. *)
Definition not_initialized (verb : string) : string :=
  "Cannot " ++ verb ++ " parameters of an un-initialized model. "
    ++ "Please initialize first by calling .initialize() "
    ++ "or by fitting the model with .fit(...).".

Section net.
(** Which keyword names the constructor recognizes. *)
Variable recognized : string -> bool.
(** Training data. *)
Variable Data : Type.
(** Constructing the module from a state of the random generator. *)
Variable init_module : nat -> Params.
(** One epoch of training: the new parameters and the epoch's record. *)
Variable train_epoch : Data -> Params -> Params * Epoch.

(** Modelled from the spec: [NeuralNet.__init__] of [skorch/net.py].
    Every keyword that matches no recognized parameter is collected,
    and one [TypeError] names them all. *)
Definition __init__ (kwargs : list (string * pyval)) (seed : nat)
  : result t :=
  let unexpected_kwargs :=
    List.filter (fun key => negb (recognized key)) (kwargs.*1) in
  match unexpected_kwargs with
  | [] =>
      Ok {| config := list_to_map kwargs; initialized_ := false;
            module_ := []; history := []; seed := seed |}
  | _ => Raise (TypeError (unexpected_arguments unexpected_kwargs))
  end.

(** Modelled from the spec: [NeuralNet.initialize] of [skorch/net.py]:
    the module is constructed afresh and the history starts empty. *)
Definition initialize (net : t) : t :=
  {| config := config net; initialized_ := true;
     module_ := init_module (seed net); history := [];
     seed := S (seed net) |}.

(** Modelled from the spec: the epoch loop of [skorch/net.py]; each
    epoch trains and appends one record to the history. *)
Fixpoint fit_loop (epochs : nat) (data : Data) (net : t) : t :=
  match epochs with
  | O => net
  | S epochs' =>
      let '(params, record) := train_epoch data (module_ net) in
      fit_loop epochs' data
        {| config := config net; initialized_ := initialized_ net;
           module_ := params; history := history net ++ [record];
           seed := seed net |}
  end.

(** Modelled from the spec: [NeuralNet.partial_fit] of
    [skorch/net.py]: initialize only a net that is not initialized,
    then train for [max_epochs] epochs. *)
Definition partial_fit (net : t) (data : Data) : t :=
  let net := if initialized_ net then net else initialize net in
  fit_loop (max_epochs net) data net.

(** Modelled from the spec: [NeuralNet.fit] of [skorch/net.py]:
    re-initialize unless warm start is on and the net is already
    initialized, then continue as [partial_fit]. *)
Definition fit (net : t) (data : Data) : t :=
  let net :=
    if negb (warm_start net) || negb (initialized_ net)
    then initialize net else net in
  partial_fit net data.

(** Modelled from the spec: [NeuralNet.save_params] of
    [skorch/net.py]: the parameters go to the file, unless the net
    is not initialized. *)
Definition save_params (net : t) (f : string) (files : Files)
  : result unit * Files :=
  if negb (initialized_ net) then
    (Raise (NotInitializedError (not_initialized "save")), files)
  else (Ok tt, <[f := module_ net]> files).

(** Modelled from the spec: [NeuralNet.load_params] of
    [skorch/net.py]: the parameters come from the file, unless the
    net is not initialized. *)
Definition load_params (net : t) (f : string) (files : Files)
  : result t * Files :=
  if negb (initialized_ net) then
    (Raise (NotInitializedError (not_initialized "load")), files)
  else
    match files !! f with
    | None => (Raise (FileNotFoundError f), files)
    | Some params =>
        (Ok {| config := config net; initialized_ := true;
               module_ := params; history := history net;
               seed := seed net |}, files)
    end.
End net.

End NeuralNet.

(** ** Concrete inputs *)

Module Examples.

Definition group : param_group :=
  {[ "lr" := (1 # 10)%Q; "momentum" := (9 # 10)%Q ]}.

Definition two_groups : Optimizer := {| param_groups := [group; group] |}.

(** A store with one optimizer, at reference 1. *)
Definition a_store : store := {[ 1%positive := PyOptimizer two_groups ]}.

(** An [exp_range] scheduler over one group that rises from 0 to 1 in
    two batches and halves the amplitude each batch, at batch index 3. *)
Definition exp_range_at_3 : CyclicLR.t :=
  {| CyclicLR.optimizer := 1%positive;
     CyclicLR.base_lrs := [0%Q];
     CyclicLR.max_lrs := [1%Q];
     CyclicLR.step_size := 2;
     CyclicLR.mode := "exp_range";
     CyclicLR.gamma := (1 # 2)%Q;
     CyclicLR.scale_fn := CyclicLR._exp_range_scale_fn;
     CyclicLR.scale_mode := "iterations";
     CyclicLR.last_batch_idx := 3 |}.

(** A [triangular2] scheduler over the two groups of [two_groups]. *)
Definition triangular2_fresh : CyclicLR.t :=
  {| CyclicLR.optimizer := 1%positive;
     CyclicLR.base_lrs := [(1 # 1000)%Q; (2 # 1000)%Q];
     CyclicLR.max_lrs := [(6 # 1000)%Q; (6 # 1000)%Q];
     CyclicLR.step_size := 2000;
     CyclicLR.mode := "triangular2";
     CyclicLR.gamma := 1%Q;
     CyclicLR.scale_fn := CyclicLR._triangular2_scale_fn;
     CyclicLR.scale_mode := "cycle";
     CyclicLR.last_batch_idx := (-1) |}.

(** What constructing a [triangular] scheduler with default index on
    [a_store] returns and leaves in the store. *)
Definition constructed : result CyclicLR.t * store :=
  CyclicLR.__init__ 1%positive (Scalar (1 # 1000)%Q)
    (Sequence [(6 # 1000)%Q; (1 # 100)%Q]) 2000 "triangular" 1%Q None
    "cycle" (-1) a_store.

Definition constructed_scheduler : CyclicLR.t :=
  {| CyclicLR.optimizer := 1%positive;
     CyclicLR.base_lrs := [(1 # 1000) * 1; (1 # 1000) * 1]%Q;
     CyclicLR.max_lrs := [(6 # 1000)%Q; (1 # 100)%Q];
     CyclicLR.step_size := 2000;
     CyclicLR.mode := "triangular";
     CyclicLR.gamma := 1%Q;
     CyclicLR.scale_fn := CyclicLR._triangular_scale_fn;
     CyclicLR.scale_mode := "cycle";
     CyclicLR.last_batch_idx := (-1) |}.

(** A warm-restart scheduler over two groups with the default periods,
    at epoch 25: one restart has happened, at epoch 11. *)
Definition warm_restart_at_25 : WarmRestartLR.t :=
  {| WarmRestartLR.min_lr := [0%R; 1%R];
     WarmRestartLR.max_lr := [1%R; 2%R];
     WarmRestartLR.base_period := 10;
     WarmRestartLR.period_mult := 2;
     WarmRestartLR.last_epoch := 25 |}.

(** A Gaussian latent distribution over two points. *)
Definition latent : BernoulliLikelihood.pyvalue :=
  BernoulliLikelihood.GaussianRandomVariable [(0%R, 3%R); (2%R, 0%R)].

(** The keyword names the constructor call of
    [test_net_init_two_unknown_argument] could have meant. *)
Definition recognized (key : string) : bool :=
  bool_decide (key ∈ ["module"; "lr"; "max_epochs"; "batch_size";
                      "warm_start"; "callbacks"]).

(** The keywords of that call, in order. *)
Definition two_typos : list (string * NeuralNet.pyval) :=
  [("lr", NeuralNet.VFloat (1 # 10)%Q); ("mxa_epochs", NeuralNet.VInt 5);
   ("warm_start", NeuralNet.VBool false); ("bathc_size", NeuralNet.VInt 20)].

(** A module with one weight, drawn from the generator state, and a
    training epoch that moves it by one. *)
Definition draw (seed : nat) : NeuralNet.Params :=
  [[inject_Z (Z.of_nat seed)]].

Definition descend (_ : unit) (params : NeuralNet.Params)
  : NeuralNet.Params * NeuralNet.Epoch :=
  (map (map (Qplus 1)) params, {[ "train_loss" := 0%Q ]}).

Definition fresh_net (warm : bool) : NeuralNet.t :=
  {| NeuralNet.config := {[ "warm_start" := NeuralNet.VBool warm ]};
     NeuralNet.initialized_ := false;
     NeuralNet.module_ := [];
     NeuralNet.history := [];
     NeuralNet.seed := 7 |}.

End Examples.

(** ** The training loop of the [CyclicLR] docstring

    [[
    for batch in data_loader:
        scheduler.batch_step()
        train_batch(...)
    ]]
    Training a batch does not touch the scheduler, so what the loop does
    to the scheduler and the optimizer's rates is [n] calls of
    [batch_step()]. *)

Fixpoint batch_steps (n : nat) (self : CyclicLR.t) : M CyclicLR.t :=
  match n with
  | O => mret self
  | S n' => self' ← CyclicLR.batch_step self None; batch_steps n' self'
  end.

(** ** [LRScheduler], the callback, with the policy [CyclicLR] *)

Module LRScheduler.

(** Modelled from the spec: one record of the history of
    [skorch/history.py]: the per-batch mappings under the key [batches]
    and the epoch's own entries. *)
Record epoch_record : Type := {
  batches : list (gmap string Q);
  entries : gmap string Q
}.

(** The part of the net that the callback reads: the history and the
    reference to the optimizer. *)
Record Net : Type := {
  history : list epoch_record;
  optimizer_ : loc
}.

(** Modelled from the spec: [history[i, 'batches']] for a Python index
    [i], negative indices counting from the end.  Both uses below are
    in range. *)
Definition history_batches (history : list epoch_record) (i : Z)
  : list (gmap string Q) :=
  let i := if (i <? 0)%Z then (Z.of_nat (length history) + i)%Z else i in
  match history !! Z.to_nat i with
  | Some record => batches record
  | None => []
  end.

Definition _get_batch_idx (net : Net) : Z :=
  match history net with
  | [] => (-1)%Z
  | _ :: _ =>
      let epoch := (Z.of_nat (length (history net)) - 1)%Z in
      let current_batch_idx :=
        (Z.of_nat (length (history_batches (history net) (-1))) - 1)%Z in
      let batch_cnt :=
        if (1 <=? epoch)%Z
        then Z.of_nat (length (history_batches (history net) (-2)))
        else 0%Z in
      (epoch * batch_cnt + current_batch_idx)%Z
  end.

(** The keyword arguments kept for the scheduler; an absent keyword is
    [None]. *)
Record kwargs : Type := {
  kw_base_lr : option (lr_arg Q);
  kw_max_lr : option (lr_arg Q);
  kw_step_size : option Z;
  kw_mode : option string;
  kw_gamma : option Q;
  kw_scale_fn : option (Z -> Q);
  kw_scale_mode : option string;
  kw_last_batch_idx : option Z
}.

(** [CyclicLR(optimizer, **kwargs)]: absent keywords take the defaults
    of the signature of [CyclicLR.__init__]. *)
Definition CyclicLR_call (optimizer : loc) (kw : kwargs) : M CyclicLR.t :=
  CyclicLR.__init__ optimizer
    (default (Scalar (1 # 1000)%Q) (kw_base_lr kw))
    (default (Scalar (6 # 1000)%Q) (kw_max_lr kw))
    (default 2000%Z (kw_step_size kw))
    (default "triangular" (kw_mode kw))
    (default 1%Q (kw_gamma kw))
    (kw_scale_fn kw)
    (default "cycle" (kw_scale_mode kw))
    (default (-1)%Z (kw_last_batch_idx kw)).

(** [_get_scheduler] for the policy [CyclicLR]: [last_epoch] is not
    added, [last_batch_idx] is unless the caller gave it. *)
Definition _get_scheduler (net : Net) (scheduler_kwargs : kwargs)
  : M CyclicLR.t :=
  let scheduler_kwargs :=
    if is_None (kw_last_batch_idx scheduler_kwargs) then
      {| kw_base_lr := kw_base_lr scheduler_kwargs;
         kw_max_lr := kw_max_lr scheduler_kwargs;
         kw_step_size := kw_step_size scheduler_kwargs;
         kw_mode := kw_mode scheduler_kwargs;
         kw_gamma := kw_gamma scheduler_kwargs;
         kw_scale_fn := kw_scale_fn scheduler_kwargs;
         kw_scale_mode := kw_scale_mode scheduler_kwargs;
         kw_last_batch_idx := Some (_get_batch_idx net) |}
    else scheduler_kwargs in
  CyclicLR_call (optimizer_ net) scheduler_kwargs.

(** The callback: its keyword arguments and, once training has begun,
    its scheduler. *)
Record t : Type := {
  kwargs_ : kwargs;
  lr_scheduler_ : option CyclicLR.t
}.

Definition initialize (self : t) : t :=
  {| kwargs_ := kwargs_ self; lr_scheduler_ := None |}.

Definition on_train_begin (self : t) (net : Net) : M t :=
  scheduler ← _get_scheduler net (kwargs_ self);
  mret {| kwargs_ := kwargs_ self; lr_scheduler_ := Some scheduler |}.

Definition on_epoch_begin (self : t) (net : Net) : M t :=
  let epoch := (Z.of_nat (length (history net)) - 1)%Z in
  match lr_scheduler_ self with
  | None =>
      raise (AttributeError "'NoneType' object has no attribute 'step'")
  | Some scheduler =>
      scheduler ← CyclicLR.step scheduler (Some epoch);
      mret {| kwargs_ := kwargs_ self; lr_scheduler_ := Some scheduler |}
  end.

Definition on_batch_begin (self : t) (net : Net) : M t :=
  match lr_scheduler_ self with
  | None => mret self
  | Some scheduler =>
      let batch_idx := _get_batch_idx net in
      scheduler ← CyclicLR.batch_step scheduler (Some batch_idx);
      mret {| kwargs_ := kwargs_ self; lr_scheduler_ := Some scheduler |}
  end.

End LRScheduler.

(** ** Further concrete inputs *)

Module Scenarios.

Definition no_kwargs : LRScheduler.kwargs :=
  {| LRScheduler.kw_base_lr := None; LRScheduler.kw_max_lr := None;
     LRScheduler.kw_step_size := None; LRScheduler.kw_mode := None;
     LRScheduler.kw_gamma := None; LRScheduler.kw_scale_fn := None;
     LRScheduler.kw_scale_mode := None;
     LRScheduler.kw_last_batch_idx := None |}.

Definition callback : LRScheduler.t :=
  {| LRScheduler.kwargs_ := no_kwargs; LRScheduler.lr_scheduler_ := None |}.

Definition epoch_of (n : nat) : LRScheduler.epoch_record :=
  {| LRScheduler.batches := repeat ∅ n; LRScheduler.entries := ∅ |}.

(** A net before its first epoch, and one in its third epoch after two
    epochs of four batches, with one batch of the third recorded. *)
Definition net_at_start : LRScheduler.Net :=
  {| LRScheduler.history := []; LRScheduler.optimizer_ := 1%positive |}.

Definition net_in_third_epoch : LRScheduler.Net :=
  {| LRScheduler.history := [epoch_of 4; epoch_of 4; epoch_of 1];
     LRScheduler.optimizer_ := 1%positive |}.

(** Schedulers over the two groups of [Examples.two_groups]. *)
Definition cyclic (mode : string) (fn : CyclicLR.scale_function)
    (scale_mode : string) (gamma : Q) (idx : Z) : CyclicLR.t :=
  {| CyclicLR.optimizer := 1%positive;
     CyclicLR.base_lrs := [(1 # 1000)%Q; (2 # 1000)%Q];
     CyclicLR.max_lrs := [(6 # 1000)%Q; (6 # 1000)%Q];
     CyclicLR.step_size := 4;
     CyclicLR.mode := mode;
     CyclicLR.gamma := gamma;
     CyclicLR.scale_fn := fn;
     CyclicLR.scale_mode := scale_mode;
     CyclicLR.last_batch_idx := idx |}.

Definition triangular_at (idx : Z) : CyclicLR.t :=
  cyclic "triangular" CyclicLR._triangular_scale_fn "cycle" 1%Q idx.

Definition triangular2_at (idx : Z) : CyclicLR.t :=
  cyclic "triangular2" CyclicLR._triangular2_scale_fn "cycle" 1%Q idx.

Definition exp_range_at (idx : Z) : CyclicLR.t :=
  cyclic "exp_range" CyclicLR._exp_range_scale_fn "iterations" (9 # 10)%Q idx.

Definition warm_restart (epoch : Z) : WarmRestartLR.t :=
  {| WarmRestartLR.min_lr := [0%R; 1%R];
     WarmRestartLR.max_lr := [1%R; 2%R];
     WarmRestartLR.base_period := 10;
     WarmRestartLR.period_mult := 2;
     WarmRestartLR.last_epoch := epoch |}.

(** Schedulers that divide by a period of zero. *)
Definition no_base_period : WarmRestartLR.t :=
  {| WarmRestartLR.min_lr := [0%R];
     WarmRestartLR.max_lr := [1%R];
     WarmRestartLR.base_period := 0;
     WarmRestartLR.period_mult := 2;
     WarmRestartLR.last_epoch := 3 |}.

Definition no_period_mult : WarmRestartLR.t :=
  {| WarmRestartLR.min_lr := [0%R];
     WarmRestartLR.max_lr := [1%R];
     WarmRestartLR.base_period := 10;
     WarmRestartLR.period_mult := 0;
     WarmRestartLR.last_epoch := 11 |}.

(** The callback and the store after [on_train_begin] on the net
    without history. *)
Definition begun : LRScheduler.t * store :=
  match LRScheduler.on_train_begin callback net_at_start Examples.a_store with
  | (Ok self, h) => (self, h)
  | (Raise _, h) => (callback, h)
  end.

(** And after [on_batch_begin] in the third epoch. *)
Definition in_batch : LRScheduler.t * store :=
  match LRScheduler.on_batch_begin begun.1 net_in_third_epoch begun.2 with
  | (Ok self, h) => (self, h)
  | (Raise _, h) => (begun.1, h)
  end.


End Scenarios.

(** * Properties *)

(** ** Results and float operations *)

Section result_lemmas.
Context {A B : Type}.

Lemma mapM_total (f : A -> result B) (g : A -> B) (l : list A) :
  (forall a, a ∈ l -> f a = Ok (g a)) -> mapM f l = Ok (map g l).
Proof.
  induction l as [|a l IH]; intros Hf; [reflexivity|].
  cbn. rewrite (Hf a) by left. cbn.
  rewrite IH by (intros; apply Hf; by right). reflexivity.
Qed.

Lemma mapM_length (f : A -> result B) (l : list A) (k : list B) :
  mapM f l = Ok k -> length k = length l.
Proof.
  revert k. induction l as [|a l IH]; cbn; intros k Hk.
  - injection Hk as <-. reflexivity.
  - destruct (f a) as [b|e]; cbn in Hk; [|discriminate].
    destruct (mapM f l) as [k'|e]; cbn in Hk; [|discriminate].
    injection Hk as <-. cbn. f_equal. by apply IH.
Qed.
End result_lemmas.

Lemma py_div_nonzero (a b : Q) : ~ (b == 0)%Q -> py_div a b = Ok (a / b)%Q.
Proof.
  intros Hb. unfold py_div.
  destruct (Qeq_bool b 0) eqn:E; [|reflexivity].
  apply Qeq_bool_iff in E. contradiction.
Qed.

Lemma inject_Z_nonzero (n : Z) : n <> 0%Z -> ~ (inject_Z n == 0)%Q.
Proof. unfold Qeq, inject_Z. cbn. lia. Qed.

Lemma twice_inject_Z_nonzero (n : Z) : n <> 0%Z -> ~ (2 * inject_Z n == 0)%Q.
Proof. unfold Qeq, inject_Z. cbn. lia. Qed.

(** ** The cyclic schedule *)

Section cyclic.
Import CyclicLR.

Lemma get_lr_value (self : t) (sc : Q) :
  step_size self <> 0%Z ->
  call_scale_fn self (scale_argument self) = Ok sc ->
  get_lr self =
    Ok (map (fun '(base_lr, max_lr) =>
               (base_lr + (max_lr - base_lr) * Qmax 0 (1 - position self) * sc)%Q)
            (zip (base_lrs self) (max_lrs self))).
Proof.
  intros Hs Hc. unfold get_lr.
  rewrite (py_div_nonzero _ (2 * inject_Z (step_size self)))
    by by apply twice_inject_Z_nonzero.
  cbn [mbind result_bind].
  rewrite (py_div_nonzero _ (inject_Z (step_size self)))
    by by apply inject_Z_nonzero.
  cbn [mbind result_bind].
  apply mapM_total. intros [b m] _.
  fold (cycle self). fold (position self).
  unfold scale_argument in Hc.
  destruct (String.eqb (scale_mode self) "cycle"); rewrite Hc; reflexivity.
Qed.

Lemma get_lr_zero_step (self : t) :
  step_size self = 0%Z -> get_lr self = Raise ZeroDivisionError.
Proof.
  intros Hs. unfold get_lr. rewrite Hs. reflexivity.
Qed.

Lemma get_lr_length (self : t) (lrs : list Q) :
  get_lr self = Ok lrs ->
  length lrs = Nat.min (length (base_lrs self)) (length (max_lrs self)).
Proof.
  unfold get_lr. intros H.
  destruct (py_div _ (2 * _)%Q); cbn in H; [|discriminate].
  destruct (py_div _ _); cbn in H; [|discriminate].
  apply mapM_length in H. rewrite H. apply length_zip_with.
Qed.

Lemma py_pow_ok (b : Q) (n : Z) :
  (~ (b == 0)%Q \/ (0 <= n)%Z) -> py_pow b n = Ok (b ^ n)%Q.
Proof.
  intros H. unfold py_pow.
  destruct (Qeq_bool b 0) eqn:Eb; cbn; [|reflexivity].
  destruct (Z.ltb_spec n 0); [|reflexivity].
  apply Qeq_bool_iff in Eb. destruct H; [contradiction|lia].
Qed.

(** cycle at a multiple of the full cycle length *)
Lemma cycle_at_multiple (self : t) (k : Z) :
  step_size self <> 0%Z ->
  cycle (set_last_batch_idx self (k * (2 * step_size self))) = (k + 1)%Z.
Proof.
  intros Hs. unfold cycle. cbn [last_batch_idx step_size set_last_batch_idx].
  assert (1 + inject_Z (k * (2 * step_size self)) / (2 * inject_Z (step_size self))
          == inject_Z (k + 1))%Q as ->.
  { rewrite inject_Z_plus, !inject_Z_mult.
    change (inject_Z 2) with 2%Q. change (inject_Z 1) with 1%Q.
    field. by apply inject_Z_nonzero. }
  apply Qfloor_Z.
Qed.

Lemma position_at_multiple (self : t) (k : Z) :
  step_size self <> 0%Z ->
  (position (set_last_batch_idx self (k * (2 * step_size self))) == 1)%Q.
Proof.
  intros Hs. unfold position. rewrite cycle_at_multiple by done.
  cbn [last_batch_idx step_size set_last_batch_idx].
  assert (inject_Z (k * (2 * step_size self)) / inject_Z (step_size self)
          - 2 * inject_Z (k + 1) + 1 == - (1))%Q as ->.
  { rewrite inject_Z_plus, !inject_Z_mult.
    change (inject_Z 2) with 2%Q. change (inject_Z 1) with 1%Q.
    field. by apply inject_Z_nonzero. }
  reflexivity.
Qed.

Lemma call_scale_fn_nonneg (self : t) (x : Z) :
  (0 <= x)%Z -> exists sc, call_scale_fn self x = Ok sc.
Proof.
  intros Hx. unfold call_scale_fn.
  destruct (scale_fn self); eauto.
  rewrite py_pow_ok by (by right). eauto.
Qed.

Lemma Forall2_map_zip_l {A B} (R : A -> A -> Prop) (f : A -> B -> A)
    (a : list A) (b : list B) :
  length a = length b ->
  (forall x y, R (f x y) x) ->
  Forall2 R (map (fun '(x, y) => f x y) (zip a b)) a.
Proof.
  intros Hlen Hf. revert b Hlen.
  induction a as [|x a IH]; intros [|y b] Hlen; try discriminate.
  - constructor.
  - cbn. constructor; [apply Hf|]. apply IH. by injection Hlen.
Qed.

Lemma wave_vanishes (b m p sc : Q) :
  (p == 1)%Q -> (b + (m - b) * Qmax 0 (1 - p) * sc == b)%Q.
Proof.
  intros Hp.
  assert (Qmax 0 (1 - p) == 0)%Q as ->.
  { apply Q.max_l. rewrite Hp. discriminate. }
  ring.
Qed.

Lemma get_lr_at_cycle_start (self : t) (k : Z) :
  step_size self <> 0%Z ->
  (0 <= k)%Z ->
  (0 <= k * (2 * step_size self))%Z ->
  length (base_lrs self) = length (max_lrs self) ->
  exists lrs,
    get_lr (set_last_batch_idx self (k * (2 * step_size self))) = Ok lrs
    /\ Forall2 Qeq lrs (base_lrs self).
Proof.
  intros Hs Hk Hidx Hlen.
  set (self' := set_last_batch_idx self (k * (2 * step_size self))).
  destruct (call_scale_fn_nonneg self' (scale_argument self')) as [sc Hsc].
  { unfold scale_argument. destruct (String.eqb _ _).
    - unfold self'. rewrite cycle_at_multiple by done. lia.
    - exact Hidx. }
  exists (map (fun '(base_lr, max_lr) =>
            (base_lr + (max_lr - base_lr) * Qmax 0 (1 - position self') * sc)%Q)
          (zip (base_lrs self') (max_lrs self'))).
  split; [by apply get_lr_value|].
  apply (Forall2_map_zip_l Qeq
           (fun b m => (b + (m - b) * Qmax 0 (1 - position self') * sc)%Q));
    [exact Hlen|].
  intros b m. apply wave_vanishes. by apply position_at_multiple.
Qed.

Section format_lr_lemmas.
Context {A : Type} (mul : A -> A -> A) (one : A).

Lemma format_lr_length name opt lr (l : list A) :
  _format_lr mul one name opt lr = Ok l ->
  length l = length (param_groups opt).
Proof.
  destruct lr as [x|xs]; cbn; intros H.
  - injection H as <-. unfold np_ones. by rewrite length_map, repeat_length.
  - destruct (Nat.eqb_spec (length xs) (length (param_groups opt)));
      cbn in H; [|discriminate].
    by injection H as <-.
Qed.

Lemma format_lr_mismatch name opt (xs : list A) :
  length xs <> length (param_groups opt) ->
  _format_lr mul one name opt (Sequence xs) =
    Raise (ValueError (length_mismatch (length (param_groups opt)) name
                         (length xs))).
Proof.
  intros H. cbn.
  by destruct (Nat.eqb_spec (length xs) (length (param_groups opt))).
Qed.

Lemma format_lr_scalar name opt (x : A) :
  _format_lr mul one name opt (Scalar x) =
    Ok (repeat (mul x one) (length (param_groups opt))).
Proof.
  cbn. unfold np_ones. f_equal.
  induction (length (param_groups opt)); cbn; congruence.
Qed.
End format_lr_lemmas.

Lemma batch_step_inv self b h self' h' :
  batch_step self b h = (Ok self', h') ->
  exists opt lrs,
    deref h (optimizer self) = PyOptimizer opt
    /\ self' = set_last_batch_idx self
                 (match b with Some i => i | None => last_batch_idx self + 1 end)%Z
    /\ get_lr self' = Ok lrs
    /\ h' = <[optimizer self :=
                PyOptimizer {| param_groups := set_lrs (param_groups opt) lrs |}]> h.
Proof.
  unfold batch_step, mbind, M_bind, load, lift, raise, store_at, mret, M_ret.
  cbn [optimizer set_last_batch_idx].
  destruct (deref h (optimizer self)) as [opt|ty]; [|discriminate].
  destruct (get_lr _) as [lrs|e] eqn:Hlr; [|discriminate].
  intros [= <- <-]. eauto 10.
Qed.

Lemma batch_step_raises self b h e h' :
  batch_step self b h = (Raise e, h') -> h' = h.
Proof.
  unfold batch_step, mbind, M_bind, load, lift, raise, store_at, mret, M_ret.
  cbn [optimizer set_last_batch_idx].
  destruct (deref h (optimizer self)) as [opt|ty]; [|congruence].
  destruct (get_lr _) as [lrs|e'] eqn:Hlr; [discriminate|congruence].
Qed.

Lemma init_inv l base_lr max_lr step m g sfn sm last h self h' :
  __init__ l base_lr max_lr step m g sfn sm last h = (Ok self, h') ->
  exists opt lrs,
    deref h l = PyOptimizer opt
    /\ _format_lr Qmult 1%Q "base_lr" opt base_lr = Ok (base_lrs self)
    /\ _format_lr Qmult 1%Q "max_lr" opt max_lr = Ok (max_lrs self)
    /\ optimizer self = l /\ step_size self = step /\ mode self = m
    /\ gamma self = g /\ last_batch_idx self = last
    /\ (sfn = None -> in_mode m self)
    /\ (forall f, sfn = Some f ->
          scale_fn self = custom_scale_fn f /\ scale_mode self = sm)
    /\ get_lr (set_last_batch_idx self (last + 1)) = Ok lrs
    /\ h' = <[l := PyOptimizer
                     {| param_groups := set_lrs (param_groups opt) lrs |}]> h.
Proof.
  unfold __init__, mbind at 1, M_bind at 1, load.
  destruct (deref h l) as [opt|ty] eqn:Hd; [|discriminate].
  unfold mbind at 1, M_bind at 1, lift.
  destruct (_format_lr _ _ "base_lr" opt base_lr) as [bl|e] eqn:Hb;
    [|discriminate].
  unfold mbind at 1, M_bind at 1.
  destruct (_format_lr _ _ "max_lr" opt max_lr) as [ml|e] eqn:Hm;
    [|discriminate].
  destruct (negb (bool_decide (m ∈ builtin_modes)) && is_None sfn) eqn:Hmode;
    [discriminate|].
  match goal with
  | |- context [let '(_, _) := ?p in _] => destruct p as [fn sm'] eqn:Hfn
  end.
  unfold mbind, M_bind.
  match goal with
  | |- context [batch_step ?s ?b h] =>
      destruct (batch_step s b h) as [[s'|e] h1] eqn:Hbs; [|discriminate]
  end.
  unfold mret, M_ret. intros [= <- <-].
  apply batch_step_inv in Hbs as (opt' & lrs & Hd' & -> & Hlr & ->).
  cbn [optimizer] in Hd'. rewrite Hd in Hd'. injection Hd' as <-.
  exists opt, lrs. cbn. repeat split; try done.
  - intros ->. unfold in_mode. cbn.
    cbn in Hmode. rewrite andb_true_r in Hmode.
    apply negb_false_iff, bool_decide_eq_true in Hmode.
    unfold builtin_modes in Hmode.
    rewrite !elem_of_cons, elem_of_nil in Hmode.
    destruct Hmode as [->|[->|[->|[]]]]; cbn in Hfn; injection Hfn as <- <-;
      constructor.
  - subst sfn. by injection Hfn as <- _.
  - subst sfn. by injection Hfn as _ <-.
Qed.

Lemma set_lrs_length groups lrs : length (set_lrs groups lrs) = length groups.
Proof.
  revert lrs. induction groups as [|g groups IH]; intros [|lr lrs]; cbn;
    try reflexivity.
  by rewrite IH.
Qed.

Lemma set_lrs_assigns groups lrs :
  length lrs = length groups ->
  Forall2 (fun (g' : param_group) lr => g' !! "lr" = Some lr)
    (set_lrs groups lrs) lrs.
Proof.
  revert lrs. induction groups as [|g groups IH]; intros [|lr lrs] Hlen;
    try discriminate; cbn.
  - constructor.
  - constructor; [apply lookup_insert_eq|]. apply IH. by injection Hlen.
Qed.

Lemma set_lrs_frame groups lrs (key : string) :
  key <> "lr" ->
  Forall2 (fun g g' : param_group => g' !! key = g !! key)
    groups (set_lrs groups lrs).
Proof.
  intros Hkey. revert lrs.
  induction groups as [|g groups IH]; intros lrs; [destruct lrs; constructor|].
  destruct lrs as [|lr lrs]; cbn.
  - apply Forall2_same_length_lookup_2; [done|congruence].
  - constructor; [|apply IH]. by rewrite lookup_insert_ne.
Qed.

Lemma in_mode_exp_range (self : t) :
  in_mode "exp_range" self ->
  scale_fn self = _exp_range_scale_fn /\ scale_mode self = "iterations".
Proof. unfold in_mode. by inversion 1. Qed.

(** [C3], as stated, fails: at batch index 3 of a scheduler with step
    size 2 the cycle number is 1, yet the amplitude has been scaled by
    [gamma ^ 3]. *)
Lemma exp_range_not_by_cycle :
  exists lrs,
    in_mode "exp_range" Examples.exp_range_at_3
    /\ get_lr Examples.exp_range_at_3 = Ok lrs
    /\ ~ Forall2 Qeq lrs (exp_range_by_cycle Examples.exp_range_at_3).
Proof.
  eexists. split; [constructor|]. split; [vm_compute; reflexivity|].
  intros H. apply Forall2_cons_1 in H as [H _]. vm_compute in H. discriminate.
Qed.

(** [C3], amended: in [exp_range] mode the learning rate of each group
    is [base_lr + (max_lr - base_lr) * max(0, 1 - x)] scaled by [gamma]
    raised to the batch index, at every batch index at which the
    schedule is defined (the step size is not zero, and [gamma] is not
    zero or the index is not negative). *)
Theorem exp_range_scales_by_batch_index (self : t) :
  in_mode "exp_range" self ->
  step_size self <> 0%Z ->
  (~ (gamma self == 0)%Q \/ (0 <= last_batch_idx self)%Z) ->
  get_lr self = Ok (exp_range_by_index self).
Proof.
  intros Hmode Hstep Hpow.
  apply in_mode_exp_range in Hmode as [Hfn Hsm].
  apply get_lr_value; [exact Hstep|].
  unfold scale_argument, call_scale_fn. rewrite Hfn, Hsm. cbn.
  by apply py_pow_ok.
Qed.

Lemma exp_range_scales_by_batch_index_witness :
  get_lr Examples.exp_range_at_3
  = Ok (exp_range_by_index Examples.exp_range_at_3).
Proof.
  apply (exp_range_scales_by_batch_index Examples.exp_range_at_3).
  - constructor.
  - cbn. lia.
  - right. cbn. lia.
Defined.

(** [C1]: whatever scale function is bound, so in particular in each of
    the modes [triangular], [triangular2] and [exp_range], and for every
    [k >= 0], [get_lr] at batch index [k * (2 * step_size)] returns the
    base learning rate of every parameter group. *)
Theorem cyclic_lr_returns_to_base (self : t) (k : Z) :
  (0 < step_size self)%Z ->
  (0 <= k)%Z ->
  length (base_lrs self) = length (max_lrs self) ->
  exists lrs,
    get_lr (set_last_batch_idx self (k * (2 * step_size self))) = Ok lrs
    /\ Forall2 Qeq lrs (base_lrs self).
Proof.
  intros Hs Hk Hlen. apply get_lr_at_cycle_start; [lia|done|nia|done].
Qed.

Lemma cyclic_lr_returns_to_base_witness :
  exists lrs,
    get_lr (set_last_batch_idx Examples.triangular2_fresh (3 * (2 * 2000)))
    = Ok lrs
    /\ Forall2 Qeq lrs [(1 # 1000)%Q; (2 # 1000)%Q].
Proof.
  apply (cyclic_lr_returns_to_base Examples.triangular2_fresh 3).
  - cbn. lia.
  - lia.
  - reflexivity.
Defined.

(** [C9]: [step] returns the scheduler and the store as they were, for
    every argument; and a method other than [batch_step] leaves the
    store, hence every learning rate of every optimizer in it, as it
    was. *)
Theorem cyclic_step_is_noop (self : t) (epoch : option Z) (h : store)
    (m : method) :
  step self epoch h = (Ok self, h)
  /\ ((forall b, m <> call_batch_step b) -> (invoke m self h).2 = h).
Proof.
  split; [reflexivity|].
  intros Hm. destruct m as [e|b| |name opt lr|x]; cbn.
  - reflexivity.
  - by destruct (Hm b).
  - unfold mbind, M_bind, lift. by destruct (get_lr self).
  - unfold mbind, M_bind, lift. by destruct (_format_lr _ _ _ _ _).
  - unfold mbind, M_bind, lift. by destruct (call_scale_fn _ _).
Qed.

Lemma cyclic_step_is_noop_witness :
  step Examples.triangular2_fresh (Some 7%Z) Examples.a_store
  = (Ok Examples.triangular2_fresh, Examples.a_store)
  /\ (invoke call_get_lr Examples.triangular2_fresh Examples.a_store).2
     = Examples.a_store.
Proof.
  destruct (cyclic_step_is_noop Examples.triangular2_fresh (Some 7%Z)
              Examples.a_store call_get_lr) as [Hstep Hother].
  split; [exact Hstep|]. apply Hother. intros b. discriminate.
Defined.

(** [batch_step], in contrast, does write the learning rates. *)
Example batch_step_updates :
  learning_rates
    (batch_step Examples.triangular2_fresh (Some 1000%Z) Examples.a_store).2
    1%positive
  <> learning_rates Examples.a_store 1%positive.
Proof. vm_compute. discriminate. Qed.

(** [C10]: a successful construction replaces the optimizer behind the
    given reference by one whose groups carry, under the key [lr], the
    schedule's values at batch index [last_batch_idx + 1], every other
    entry being kept; the scheduler stores [last_batch_idx] itself; and
    for [last_batch_idx = -1] those values are the base learning rates. *)
Theorem cyclic_init_sets_learning_rates
    l base_lr max_lr step m g sfn sm last h self h' :
  __init__ l base_lr max_lr step m g sfn sm last h = (Ok self, h') ->
  exists opt lrs groups',
    deref h l = PyOptimizer opt
    /\ get_lr (set_last_batch_idx self (last + 1)) = Ok lrs
    /\ h' = <[l := PyOptimizer {| param_groups := groups' |}]> h
    /\ Forall2 (fun (g' : param_group) lr => g' !! "lr" = Some lr) groups' lrs
    /\ (forall key : string, key <> "lr" ->
          Forall2 (fun g0 g' : param_group => g' !! key = g0 !! key)
            (param_groups opt) groups')
    /\ last_batch_idx self = last
    /\ _format_lr Qmult 1%Q "base_lr" opt base_lr = Ok (base_lrs self)
    /\ (last = (-1)%Z -> Forall2 Qeq lrs (base_lrs self)).
Proof.
  intros Hinit.
  apply init_inv in Hinit
    as (opt & lrs & Hd & Hb & Hm & Ho & Hs & _ & _ & Hl & _ & _ & Hlr & ->).
  exists opt, lrs, (set_lrs (param_groups opt) lrs).
  assert (length (base_lrs self) = length (max_lrs self)) as Hlen.
  { apply format_lr_length in Hb, Hm. congruence. }
  repeat split; try done.
  - apply set_lrs_assigns. apply get_lr_length in Hlr. cbn in Hlr.
    apply format_lr_length in Hb. lia.
  - intros key Hkey. by apply set_lrs_frame.
  - intros ->.
    assert (step_size self <> 0%Z) as Hstep.
    { intros Hz. rewrite get_lr_zero_step in Hlr by done. discriminate. }
    destruct (get_lr_at_cycle_start self 0 Hstep) as (lrs' & Hlr' & Hbase);
      [lia|lia|done|].
    change (0 * (2 * step_size self))%Z with (-1 + 1)%Z in Hlr'.
    rewrite Hlr in Hlr'. by injection Hlr' as <-.
Qed.

Lemma cyclic_init_sets_learning_rates_witness :
  exists opt lrs groups',
    deref Examples.a_store 1%positive = PyOptimizer opt
    /\ get_lr (set_last_batch_idx Examples.constructed_scheduler (-1 + 1))
       = Ok lrs
    /\ Examples.constructed.2
       = <[1%positive := PyOptimizer {| param_groups := groups' |}]>
           Examples.a_store
    /\ Forall2 (fun (g' : param_group) lr => g' !! "lr" = Some lr) groups' lrs
    /\ (forall key : string, key <> "lr" ->
          Forall2 (fun g0 g' : param_group => g' !! key = g0 !! key)
            (param_groups opt) groups')
    /\ last_batch_idx Examples.constructed_scheduler = (-1)%Z
    /\ _format_lr Qmult 1%Q "base_lr" opt (Scalar (1 # 1000)%Q)
       = Ok (base_lrs Examples.constructed_scheduler)
    /\ ((-1)%Z = (-1)%Z ->
        Forall2 Qeq lrs (base_lrs Examples.constructed_scheduler)).
Proof.
  apply (cyclic_init_sets_learning_rates 1%positive (Scalar (1 # 1000)%Q)
           (Sequence [(6 # 1000)%Q; (1 # 100)%Q]) 2000 "triangular" 1%Q None
           "cycle" (-1) Examples.a_store).
  vm_compute. reflexivity.
Defined.

End cyclic.

(** ** The warm-restart schedule *)

Section warm_restart.
Import WarmRestartLR.

Lemma inject_Z_pos (pz : Z) : (0 < pz)%Z -> (0 < inject_Z pz)%Q.
Proof. intros H. change 0%Q with (inject_Z 0). by rewrite <- Zlt_Qlt. Qed.

Lemma inject_Z_eq (a b : Z) : a = b -> (inject_Z a == inject_Z b)%Q.
Proof. by intros ->. Qed.

Lemma exceeds_one_iff (e P : Q) (ez pz : Z) :
  (e == inject_Z ez)%Q -> (P == inject_Z pz)%Q -> (0 < pz)%Z ->
  (1 < e / P)%Q <-> (pz < ez)%Z.
Proof.
  intros He HP Hpz.
  assert (0 < P)%Q as HPpos by (rewrite HP; by apply inject_Z_pos).
  rewrite (Zlt_Qlt pz ez), <- He, <- HP.
  rewrite <- (Qmult_lt_r 1 (e / P) P HPpos).
  assert (e / P * P == e)%Q as -> by (field; Lqa.lra).
  by rewrite Qmult_1_l.
Qed.

Lemma period_nonzero (P : Q) (pz : Z) :
  (P == inject_Z pz)%Q -> (0 < pz)%Z -> Qeq_bool P 0 = false.
Proof.
  intros HP Hpz. destruct (Qeq_bool P 0) eqn:E; [|reflexivity].
  apply Qeq_bool_iff in E. pose proof (inject_Z_pos pz Hpz). Lqa.lra.
Qed.

Lemma period_start_shift (b m : Z) (k : nat) :
  period_start b m (S k) = (b + 1 + period_start (b * m) m k)%Z.
Proof.
  induction k as [|k IH].
  - cbn. lia.
  - change (period_start b m (S (S k)))
      with (period_start b m (S k) + (b * m ^ Z.of_nat (S k) + 1))%Z.
    rewrite IH.
    change (period_start (b * m) m (S k))
      with (period_start (b * m) m k + (b * m * m ^ Z.of_nat k + 1))%Z.
    rewrite Nat2Z.inj_succ, Z.pow_succ_r by lia. lia.
Qed.

(** The loop on integer inputs: it stops, after [k] restarts, with the
    period [pz * mult ^ k] and the index counted from the start of that
    period. *)
Lemma restart_loop_integers (mult : Z) (n : nat) :
  (0 < mult)%Z ->
  forall (ez pz : Z) (e P : Q),
    (0 < pz)%Z -> (ez <= Z.of_nat n)%Z ->
    (e == inject_Z ez)%Q -> (P == inject_Z pz)%Q ->
    exists (e' P' : Q) (k : nat),
      restart_loop (S n) mult e P = Some (Ok (e', P'))
      /\ (P' == inject_Z (pz * mult ^ Z.of_nat k))%Q
      /\ (e' == inject_Z (ez - period_start pz mult k))%Q
      /\ (ez - period_start pz mult k <= pz * mult ^ Z.of_nat k)%Z
      /\ ((0 <= ez)%Z -> (0 <= ez - period_start pz mult k)%Z).
Proof.
  intros Hmult. induction n as [|n IH]; intros ez pz e P Hpz Hez He HP.
  - (* no restart can happen: the index is not positive *)
    exists e, P, 0%nat. cbn [restart_loop].
    rewrite (period_nonzero P pz HP Hpz).
    destruct (Qlt_le_dec 1 (e / P)) as [Hgt|_].
    { apply (exceeds_one_iff e P ez pz He HP Hpz) in Hgt. lia. }
    cbn. rewrite Z.mul_1_r, Z.sub_0_r. repeat split; try done; lia.
  - cbn [restart_loop]. rewrite (period_nonzero P pz HP Hpz).
    destruct (Qlt_le_dec 1 (e / P)) as [Hgt|Hle].
    + apply (exceeds_one_iff e P ez pz He HP Hpz) in Hgt.
      destruct (IH (ez - (pz + 1))%Z (pz * mult)%Z
                  (e - (P + 1))%Q (P * inject_Z mult)%Q)
        as (e' & P' & k & Hloop & HP' & He' & Hup & Hlow); [nia|lia| | |].
      { rewrite He, HP. unfold Zminus.
        rewrite inject_Z_plus, inject_Z_opp, inject_Z_plus. reflexivity. }
      { rewrite HP, inject_Z_mult. reflexivity. }
      exists e', P', (S k). rewrite period_start_shift.
      rewrite Nat2Z.inj_succ, Z.pow_succ_r by lia.
      split; [exact Hloop|].
      split; [rewrite HP'; apply inject_Z_eq; ring|].
      split; [rewrite He'; apply inject_Z_eq; ring|].
      split; [lia|]. intros H0. lia.
    + exists e, P, 0%nat.
      assert (~ (pz < ez)%Z) as Hnot.
      { rewrite <- (exceeds_one_iff e P ez pz He HP Hpz). Lqa.lra. }
      cbn. rewrite Z.mul_1_r, Z.sub_0_r. repeat split; try done; lia.
Qed.

Lemma restart_loop_more_fuel (mult : Z) (fuel : nat) :
  forall e P r,
    restart_loop fuel mult e P = Some r ->
    restart_loop (S fuel) mult e P = Some r.
Proof.
  induction fuel as [|fuel IH]; intros e P r; [discriminate|].
  intros H. cbn [restart_loop] in *.
  destruct (Qeq_bool P 0); [exact H|].
  destruct (Qlt_le_dec 1 (e / P)); [|exact H]. by apply IH.
Qed.

Lemma restart_loop_fuel_le (mult : Z) (fuel fuel' : nat) e P r :
  (fuel <= fuel')%nat ->
  restart_loop fuel mult e P = Some r ->
  restart_loop fuel' mult e P = Some r.
Proof.
  induction 1 as [|fuel' _ IH]; [done|].
  intros H. by apply restart_loop_more_fuel, IH.
Qed.

Lemma restart_loop_sound (mult : Z) (fuel : nat) :
  forall e P r,
    restart_loop fuel mult e P = Some (Ok r) -> reduces mult (e, P) r.
Proof.
  induction fuel as [|fuel IH]; intros e P r; [discriminate|].
  cbn [restart_loop]. destruct (Qeq_bool P 0); [discriminate|].
  destruct (Qlt_le_dec 1 (e / P)) as [Hgt|Hle].
  - intros H. apply reduces_restart; [exact Hgt|]. by apply IH.
  - intros [= <-]. apply reduces_stop. Lqa.lra.
Qed.

Lemma reduces_deterministic (mult : Z) (s r r' : Q * Q) :
  reduces mult s r -> reduces mult s r' -> r = r'.
Proof.
  intros H. revert r'. induction H as [e P Hn|e P r Hgt _ IH]; intros r' H'.
  - inversion H'; subst; [reflexivity|contradiction].
  - inversion H'; subst; [contradiction|]. by apply IH.
Qed.

Lemma np_broadcast_same {A} (op : A -> A -> A) (a b : list A) :
  length a = length b -> np_broadcast op a b = Ok (zip_with op a b).
Proof.
  intros H. unfold np_broadcast. by rewrite H, Nat.eqb_refl.
Qed.

Lemma get_current_lr_value (mins maxs : list R) (P e : Q) :
  length mins = length maxs ->
  Qeq_bool P 0 = false ->
  _get_current_lr mins maxs P e
  = Ok (zip_with (fun mn mx => half_cosine mn mx e P) mins maxs).
Proof.
  intros Hlen HP. unfold _get_current_lr.
  rewrite np_broadcast_same by done. cbn [mbind result_bind]. rewrite HP.
  rewrite np_broadcast_same
    by (by rewrite !length_map, length_zip_with, Hlen, Nat.min_id).
  f_equal. revert maxs Hlen.
  induction mins as [|mn mins IH]; intros [|mx maxs] Hlen;
    try discriminate; [reflexivity|].
  cbn. f_equal. apply IH. by injection Hlen.
Qed.

Lemma get_current_lr_length (mins maxs lrs : list R) (P e : Q) :
  length mins = length maxs ->
  _get_current_lr mins maxs P e = Ok lrs ->
  length lrs = length mins.
Proof.
  intros Hlen H. destruct (Qeq_bool P 0) eqn:HP.
  - unfold _get_current_lr in H. rewrite np_broadcast_same in H by done.
    cbn [mbind result_bind] in H. rewrite HP in H. discriminate.
  - rewrite get_current_lr_value in H by done. injection H as <-.
    rewrite length_zip_with. lia.
Qed.

Lemma warm_restart_get_lr_length (fuel : nat) (self : t) (lrs : list R) :
  length (min_lr self) = length (max_lr self) ->
  get_lr fuel self = Some (Ok lrs) ->
  length lrs = length (min_lr self).
Proof.
  intros Hlen. unfold get_lr.
  destruct (restart_loop _ _ _ _) as [[[e P]|err]|]; try discriminate.
  intros [= H]. by eapply get_current_lr_length.
Qed.

Lemma half_cosine_start (mn mx : R) (P : Q) :
  half_cosine mn mx 0 P = mx.
Proof.
  unfold half_cosine. rewrite RMicromega.Q2R_0.
  replace (0 * PI / Q2R P)%R with 0%R by (unfold Rdiv; ring).
  rewrite cos_0. Lra.lra.
Qed.

Lemma half_cosine_end (mn mx : R) (P : Q) :
  ~ (P == 0)%Q -> half_cosine mn mx P P = mn.
Proof.
  intros HP. unfold half_cosine.
  assert (Q2R P <> 0%R) as HP'.
  { intros E. apply HP, eqR_Qeq. by rewrite RMicromega.Q2R_0. }
  replace (Q2R P * PI / Q2R P)%R with PI by (by field).
  rewrite cos_PI. Lra.lra.
Qed.

Lemma half_cosine_bounds (mn mx : R) (e P : Q) :
  (mn <= mx)%R -> (mn <= half_cosine mn mx e P <= mx)%R.
Proof.
  intros H. unfold half_cosine.
  pose proof (COS_bound (Q2R e * PI / Q2R P)) as [Hl Hu]. split; Lra.nra.
Qed.

Lemma half_cosine_decays (mn mx : R) (e1 e2 P : Q) :
  (mn <= mx)%R -> (0 <= e1)%Q -> (e1 <= e2)%Q -> (e2 <= P)%Q -> (0 < P)%Q ->
  (half_cosine mn mx e2 P <= half_cosine mn mx e1 P)%R.
Proof.
  intros Hm H1 H12 H2 HP. unfold half_cosine.
  apply Qle_Rle in H1, H12, H2. apply Qlt_Rlt in HP.
  rewrite RMicromega.Q2R_0 in *.
  pose proof PI_RGT_0 as Hpi.
  assert (forall x, (0 <= x)%R -> (x <= Q2R P)%R ->
                    (0 <= x * PI / Q2R P <= PI)%R) as Hrange.
  { intros x Hx0 HxP. split.
    - apply Rmult_le_pos; [Lra.nra|]. left. by apply Rinv_0_lt_compat.
    - apply (Rmult_le_reg_r (Q2R P)); [done|].
      replace (x * PI / Q2R P * Q2R P)%R with (x * PI)%R by (field; Lra.lra).
      Lra.nra. }
  assert (cos (Q2R e2 * PI / Q2R P) <= cos (Q2R e1 * PI / Q2R P))%R as Hcos.
  { destruct (Hrange (Q2R e1)) as [? ?]; [Lra.lra|Lra.lra|].
    destruct (Hrange (Q2R e2)) as [? ?]; [Lra.lra|Lra.lra|].
    apply cos_decr_1; try done.
    apply (Rmult_le_reg_r (Q2R P)); [done|].
    replace (Q2R e1 * PI / Q2R P * Q2R P)%R with (Q2R e1 * PI)%R
      by (field; Lra.lra).
    replace (Q2R e2 * PI / Q2R P * Q2R P)%R with (Q2R e2 * PI)%R
      by (field; Lra.lra).
    Lra.nra. }
  Lra.nra.
Qed.

(** [C2]: for positive base period and multiplier [get_lr] returns, at
    every epoch index and given enough fuel, the half cosine
    [min_lr + 0.5*(max_lr - min_lr)*(1 + cos(e*pi/P))] of every group,
    where [(e, P)] is what the reduction described in the specification
    reaches and nothing else is; [P] is the base period scaled by the
    multiplier once per restart, [e] counts from the start of the
    current period and lies in [0, P] from epoch 0 on; and within a
    period the half cosine falls from [max_lr] at [e = 0] to [min_lr] at
    [e = P]. *)
Theorem warm_restart_schedule (self : t) :
  (0 < base_period self)%Z ->
  (0 < period_mult self)%Z ->
  length (min_lr self) = length (max_lr self) ->
  exists (e P : Q) (restarts : nat),
    reduces (period_mult self)
      (inject_Z (last_epoch self), inject_Z (base_period self)) (e, P)
    /\ (forall r,
          reduces (period_mult self)
            (inject_Z (last_epoch self), inject_Z (base_period self)) r ->
          r = (e, P))
    /\ (forall fuel, (Z.to_nat (last_epoch self) < fuel)%nat ->
          get_lr fuel self
          = Some (Ok (zip_with (fun mn mx => half_cosine mn mx e P)
                        (min_lr self) (max_lr self))))
    /\ (P == inject_Z (base_period self
                       * period_mult self ^ Z.of_nat restarts))%Q
    /\ (e == inject_Z (last_epoch self
                       - period_start (base_period self) (period_mult self)
                           restarts))%Q
    /\ (0 < P)%Q /\ (e <= P)%Q
    /\ ((0 <= last_epoch self)%Z -> (0 <= e)%Q)
    /\ (forall mn mx,
          half_cosine mn mx 0 P = mx /\ half_cosine mn mx P P = mn)
    /\ (forall mn mx e1 e2,
          (mn <= mx)%R -> (0 <= e1)%Q -> (e1 <= e2)%Q -> (e2 <= P)%Q ->
          (mn <= half_cosine mn mx e2 P <= half_cosine mn mx e1 P
           /\ half_cosine mn mx e1 P <= mx)%R).
Proof.
  intros Hbase Hmult Hlen.
  destruct (restart_loop_integers (period_mult self)
              (Z.to_nat (last_epoch self)) Hmult (last_epoch self)
              (base_period self) (inject_Z (last_epoch self))
              (inject_Z (base_period self)))
    as (e & P & k & Hloop & HP & He & Hup & Hlow);
    [done|lia|reflexivity|reflexivity|].
  assert (0 < base_period self * period_mult self ^ Z.of_nat k)%Z as Hpos.
  { apply Z.mul_pos_pos; [done|]. apply Z.pow_pos_nonneg; lia. }
  assert (0 < P)%Q as HPpos by (rewrite HP; by apply inject_Z_pos).
  assert (Qeq_bool P 0 = false) as HP0 by (by eapply period_nonzero).
  pose proof (restart_loop_sound _ _ _ _ _ Hloop) as Hred.
  exists e, P, k. repeat split; try done.
  - intros r Hr. by apply (reduces_deterministic _ _ _ _ Hr).
  - intros fuel Hfuel. unfold get_lr.
    rewrite (restart_loop_fuel_le _ (S (Z.to_nat (last_epoch self))) fuel
               _ _ _ ltac:(lia) Hloop).
    f_equal. by apply get_current_lr_value.
  - rewrite He, HP. by rewrite <- Zle_Qle.
  - intros H0. rewrite He. change 0%Q with (inject_Z 0).
    rewrite <- Zle_Qle. by apply Hlow.
  - apply half_cosine_start.
  - apply half_cosine_end. Lqa.lra.
  - apply half_cosine_bounds; done.
  - by apply half_cosine_decays.
  - apply half_cosine_bounds; done.
Qed.

Lemma warm_restart_schedule_witness :
  exists (e P : Q) (restarts : nat),
    reduces 2 (inject_Z 25, inject_Z 10) (e, P)
    /\ (forall r, reduces 2 (inject_Z 25, inject_Z 10) r -> r = (e, P))
    /\ (forall fuel, (Z.to_nat 25 < fuel)%nat ->
          get_lr fuel Examples.warm_restart_at_25
          = Some (Ok (zip_with (fun mn mx => half_cosine mn mx e P)
                        [0%R; 1%R] [1%R; 2%R])))
    /\ (P == inject_Z (10 * 2 ^ Z.of_nat restarts))%Q
    /\ (e == inject_Z (25 - period_start 10 2 restarts))%Q
    /\ (0 < P)%Q /\ (e <= P)%Q
    /\ ((0 <= 25)%Z -> (0 <= e)%Q)
    /\ (forall mn mx,
          half_cosine mn mx 0 P = mx /\ half_cosine mn mx P P = mn)
    /\ (forall mn mx e1 e2,
          (mn <= mx)%R -> (0 <= e1)%Q -> (e1 <= e2)%Q -> (e2 <= P)%Q ->
          (mn <= half_cosine mn mx e2 P <= half_cosine mn mx e1 P
           /\ half_cosine mn mx e1 P <= mx)%R).
Proof.
  apply (warm_restart_schedule Examples.warm_restart_at_25).
  - cbn. lia.
  - cbn. lia.
  - reflexivity.
Defined.

(** On the example the loop runs once: epoch 25 is index 14 of the
    second period, which has length 20. *)
Example restart_loop_at_25 :
  exists e P,
    restart_loop 3 2 (inject_Z 25) (inject_Z 10) = Some (Ok (e, P))
    /\ (e == 14)%Q /\ (P == 20)%Q.
Proof. eexists _, _. vm_compute. repeat split; congruence. Qed.

End warm_restart.

(** ** Per-group rates and the number of groups *)

Lemma warm_restart_init_inv opt mn mx bp pm le self :
  WarmRestartLR.__init__ opt mn mx bp pm le = Ok self ->
  _format_lr Rmult 1%R "min_lr" opt mn = Ok (WarmRestartLR.min_lr self)
  /\ _format_lr Rmult 1%R "max_lr" opt mx = Ok (WarmRestartLR.max_lr self)
  /\ WarmRestartLR.base_period self = bp
  /\ WarmRestartLR.period_mult self = pm
  /\ WarmRestartLR.last_epoch self = le.
Proof.
  unfold WarmRestartLR.__init__.
  destruct (_format_lr _ _ "min_lr" opt mn) as [a|e]; [|discriminate].
  destruct (_format_lr _ _ "max_lr" opt mx) as [b|e]; [|discriminate].
  cbn. by intros [= <-].
Qed.

(** [C4]: for an optimizer with [n] parameter groups, both constructors
    raise the [ValueError] that reports [n] and the length given as soon
    as a sequence of another length is passed for a per-group rate; a
    scalar becomes a vector of [n] equal entries; and whatever [get_lr]
    returns on a constructed scheduler, at whatever index, has [n]
    entries. *)
Theorem per_group_rates_match_groups (opt : Optimizer) (h : store) (l : loc) :
  deref h l = PyOptimizer opt ->
  (forall xs other bp pm le,
      length xs <> length (param_groups opt) ->
      WarmRestartLR.__init__ opt (Sequence xs) other bp pm le
      = Raise (ValueError (length_mismatch (length (param_groups opt))
                             "min_lr" (length xs))))
  /\ (forall mn v xs bp pm le,
        _format_lr Rmult 1%R "min_lr" opt mn = Ok v ->
        length xs <> length (param_groups opt) ->
        WarmRestartLR.__init__ opt mn (Sequence xs) bp pm le
        = Raise (ValueError (length_mismatch (length (param_groups opt))
                               "max_lr" (length xs))))
  /\ (forall xs other step m g sfn sm last,
        length xs <> length (param_groups opt) ->
        CyclicLR.__init__ l (Sequence xs) other step m g sfn sm last h
        = (Raise (ValueError (length_mismatch (length (param_groups opt))
                                "base_lr" (length xs))), h))
  /\ (forall base v xs step m g sfn sm last,
        _format_lr Qmult 1%Q "base_lr" opt base = Ok v ->
        length xs <> length (param_groups opt) ->
        CyclicLR.__init__ l base (Sequence xs) step m g sfn sm last h
        = (Raise (ValueError (length_mismatch (length (param_groups opt))
                                "max_lr" (length xs))), h))
  /\ (forall (A : Type) (mul : A -> A -> A) (one : A) name (x : A),
        exists v,
          _format_lr mul one name opt (Scalar x) = Ok v
          /\ length v = length (param_groups opt)
          /\ Forall (eq (mul x one)) v)
  /\ (forall mn mx bp pm le self,
        WarmRestartLR.__init__ opt mn mx bp pm le = Ok self ->
        forall fuel epoch lrs,
          WarmRestartLR.get_lr fuel (WarmRestartLR.set_last_epoch self epoch)
          = Some (Ok lrs) ->
          length lrs = length (param_groups opt))
  /\ (forall base mx step m g sfn sm last self h',
        CyclicLR.__init__ l base mx step m g sfn sm last h = (Ok self, h') ->
        length (CyclicLR.learning_rates h' l) = length (param_groups opt)
        /\ forall idx lrs,
            CyclicLR.get_lr (CyclicLR.set_last_batch_idx self idx) = Ok lrs ->
            length lrs = length (param_groups opt)).
Proof.
  intros Hd. repeat apply conj.
  - intros xs other bp pm le Hxs. unfold WarmRestartLR.__init__.
    by rewrite format_lr_mismatch.
  - intros mn v xs bp pm le Hmn Hxs. unfold WarmRestartLR.__init__.
    rewrite Hmn. cbn [mbind result_bind]. by rewrite format_lr_mismatch.
  - intros xs other step m g sfn sm last Hxs.
    unfold CyclicLR.__init__, mbind, M_bind, load, lift. rewrite Hd.
    by rewrite format_lr_mismatch.
  - intros base v xs step m g sfn sm last Hbase Hxs.
    unfold CyclicLR.__init__, mbind, M_bind, load, lift. rewrite Hd, Hbase.
    by rewrite format_lr_mismatch.
  - intros A mul one name x. rewrite format_lr_scalar.
    eexists. split; [reflexivity|]. split; [apply repeat_length|].
    induction (length (param_groups opt)); cbn; by constructor.
  - intros mn mx bp pm le self Hinit fuel epoch lrs Hlr.
    apply warm_restart_init_inv in Hinit as (Hmn & Hmx & _).
    apply format_lr_length in Hmn, Hmx.
    apply warm_restart_get_lr_length in Hlr; cbn in *; congruence.
  - intros base mx step m g sfn sm last self h' Hinit.
    apply init_inv in Hinit
      as (opt' & lrs0 & Hd' & Hb & Hm & _ & _ & _ & _ & _ & _ & _ & _ & ->).
    rewrite Hd in Hd'. injection Hd' as <-.
    apply format_lr_length in Hb, Hm. split.
    + unfold CyclicLR.learning_rates, deref. rewrite lookup_insert_eq. cbn.
      by rewrite length_map, set_lrs_length.
    + intros idx lrs Hlr. apply get_lr_length in Hlr. cbn in Hlr. lia.
Qed.

Lemma per_group_rates_match_groups_witness :
  WarmRestartLR.__init__ Examples.two_groups (Sequence [1%R]) (Scalar 2%R)
    10 2 (-1)
  = Raise (ValueError "expected 2 values for min_lr, got 1")
  /\ (CyclicLR.__init__ 1%positive (Scalar 1%Q) (Sequence [1%Q; 2%Q; 3%Q])
        2000 "triangular" 1%Q None "cycle" (-1) Examples.a_store).1
     = Raise (ValueError "expected 2 values for max_lr, got 3")
  /\ exists v,
      _format_lr Qmult 1%Q "base_lr" Examples.two_groups (Scalar (1 # 1000)%Q)
      = Ok v
      /\ length v = 2%nat.
Proof.
  destruct (per_group_rates_match_groups Examples.two_groups Examples.a_store
              1%positive eq_refl)
    as (Hmin & _ & _ & Hmax & Hscalar & _).
  split; [|split].
  - apply (Hmin [1%R] (Scalar 2%R) 10%Z 2%Z (-1)%Z). cbn. lia.
  - rewrite (Hmax (Scalar 1%Q) _ [1%Q; 2%Q; 3%Q] 2000%Z "triangular" 1%Q None
               "cycle" (-1)%Z eq_refl); [reflexivity|cbn; lia].
  - destruct (Hscalar Q Qmult 1%Q "base_lr" (1 # 1000)%Q) as (v & Hv & Hlen & _).
    exists v. split; [exact Hv|exact Hlen].
Defined.

(** ** The probit likelihood *)

Section bernoulli.
Import BernoulliLikelihood.
Variable Phi : R -> R.

Lemma link_lookup (marginals : list (R * R)) (i : nat) (mu s2 : R) :
  marginals !! i = Some (mu, s2) ->
  normal_cdf Phi
    (zip_with Rdiv (mean marginals) (map sqrt (map (Rplus 1) (var marginals))))
    !! i
  = Some (Phi (mu / sqrt (1 + s2))%R).
Proof.
  revert i. induction marginals as [|[m v] marginals IH]; intros [|i];
    cbn; try discriminate.
  - by intros [= -> ->].
  - apply IH.
Qed.

Lemma link_length (marginals : list (R * R)) :
  length (normal_cdf Phi
            (zip_with Rdiv (mean marginals)
               (map sqrt (map (Rplus 1) (var marginals)))))
  = length marginals.
Proof.
  unfold normal_cdf, mean, var.
  rewrite length_map, length_zip_with, !length_map. lia.
Qed.

(** [C8]: [forward] raises exactly when its input is not a Gaussian
    random variable, and what it raises then is a [RuntimeError]; on a
    Gaussian it returns the Bernoulli variable whose [i]-th probability
    is [Phi (mean_i / sqrt (1 + var_i))]. *)
Theorem bernoulli_forward (input : pyvalue) :
  ((exists e, forward Phi input = Raise e)
   <-> isinstance_Gaussian input = false)
  /\ (forall e, forward Phi input = Raise e ->
        e = RuntimeError
              "BernoulliLikelihood expects a Gaussian distributed latent function to make predictions")
  /\ (forall marginals,
        input = GaussianRandomVariable marginals ->
        exists probs,
          forward Phi input = Ok (BernoulliRandomVariable probs)
          /\ length probs = length marginals
          /\ forall i mu s2,
              marginals !! i = Some (mu, s2) ->
              probs !! i = Some (Phi (mu / sqrt (1 + s2))%R)).
Proof.
  split; [|split].
  - destruct input; cbn; split; try done; try (intros [e ?]; done); eauto.
  - destruct input; cbn; intros e; try discriminate; by intros [= <-].
  - intros marginals ->. eexists. split; [reflexivity|].
    split; [apply link_length|]. intros i mu s2. apply link_lookup.
Qed.
End bernoulli.

Lemma bernoulli_forward_witness :
  exists probs,
    BernoulliLikelihood.forward (fun x : R => x) Examples.latent
    = Ok (BernoulliLikelihood.BernoulliRandomVariable probs)
    /\ length probs = 2%nat
    /\ forall i mu s2,
        [(0%R, 3%R); (2%R, 0%R)] !! i = Some (mu, s2) ->
        probs !! i = Some (mu / sqrt (1 + s2))%R.
Proof.
  destruct (bernoulli_forward (fun x : R => x) Examples.latent)
    as (_ & _ & H).
  apply (H [(0%R, 3%R); (2%R, 0%R)]). reflexivity.
Defined.

(** ** The net *)

Lemma append_assoc (a b c : string) : (a ++ b) ++ c = a ++ (b ++ c).
Proof.
  induction a as [|x a IH]; [reflexivity|].
  change (String x ((a ++ b) ++ c) = String x (a ++ b ++ c)). by f_equal.
Qed.

Lemma append_empty (a : string) : a ++ "" = a.
Proof.
  induction a as [|x a IH]; [reflexivity|].
  change (String x (a ++ "") = String x a). by f_equal.
Qed.

(** Every joined name can be read off the joined string. *)
Lemma join_mentions (sep : string) (names : list string) (k : string) :
  In k names -> exists pre post, join sep names = pre ++ k ++ post.
Proof.
  induction names as [|s names IH]; [intros []|].
  intros [->|Hin].
  - destruct names as [|s' names].
    + exists "", "". change (k = k ++ ""). by rewrite append_empty.
    + exists "", (sep ++ join sep (s' :: names)). reflexivity.
  - destruct names as [|s' names]; [destruct Hin|].
    destruct (IH Hin) as (pre & post & E).
    exists (s ++ sep ++ pre), post.
    change (join sep (s :: s' :: names))
      with (s ++ sep ++ join sep (s' :: names)).
    rewrite E. by rewrite !append_assoc.
Qed.

Section net.
Import NeuralNet.
Variable recognized : string -> bool.
Variable Data : Type.
Variable init_module : nat -> Params.
Variable train_epoch : Data -> Params -> Params * Epoch.








(** [C6]: all the keywords that match no recognized parameter are
    reported by one [TypeError], whose message is the one the test
    expects, with every such keyword in it, in the order given; with no
    such keyword the constructor returns a net. *)
Theorem unknown_keywords_reported_together
    (kwargs : list (string * pyval)) (seed : nat) :
  let unknown := List.filter (fun key => negb (recognized key)) (kwargs.*1) in
  (unknown <> [] ->
     __init__ recognized kwargs seed
     = Raise (TypeError (unexpected_arguments unknown)))
  /\ (unknown = [] -> is_ok (__init__ recognized kwargs seed) = true)
  /\ (forall key,
        In key unknown <-> In key (kwargs.*1) /\ recognized key = false)
  /\ (forall key,
        In key unknown ->
        exists pre post, unexpected_arguments unknown = pre ++ key ++ post).
Proof.
  intros unknown. repeat apply conj.
  - intros Hne. unfold __init__. fold unknown. by destruct unknown.
  - intros He. unfold __init__. fold unknown. by rewrite He.
  - intros key. unfold unknown. rewrite filter_In, negb_true_iff. done.
  - intros key Hin.
    destruct (join_mentions ", " unknown key Hin) as (pre & post & E).
    exists ("__init__() got unexpected argument(s) " ++ pre),
      (post ++ "."
         ++ "Either you made a typo, or you added new arguments "
         ++ "in a subclass; if that is the case, the subclass "
         ++ "should deal with the new arguments explicitely.").
    unfold unexpected_arguments. rewrite E. by rewrite !append_assoc.
Qed.

(** [C7]: on a net that is not initialized [save_params] and
    [load_params] raise [NotInitializedError] with the message that
    tells to call [initialize] or [fit]; the files are left as they were
    and the outcome does not depend on what they hold. *)
Theorem checkpoint_needs_initialized_net (net : t) (f : string)
    (files : Files) :
  initialized_ net = false ->
  save_params net f files
  = (Raise (NotInitializedError
       "Cannot save parameters of an un-initialized model. Please initialize first by calling .initialize() or by fitting the model with .fit(...)."),
     files)
  /\ load_params net f files
     = (Raise (NotInitializedError
          "Cannot load parameters of an un-initialized model. Please initialize first by calling .initialize() or by fitting the model with .fit(...)."),
        files)
  /\ (forall files' : Files,
        (save_params net f files').1 = (save_params net f files).1
        /\ (load_params net f files').1 = (load_params net f files).1).
Proof.
  intros Hinit. unfold save_params, load_params. rewrite Hinit. cbn. done.
Qed.
End net.



(** The second fit of [test_call_fit_twice_retrains] and of
    [test_call_fit_twice_warmstart] on the example module: ten epochs of
    history survive a warm start, none a cold one. *)
Example history_after_refit :
  length (NeuralNet.history
            (NeuralNet.fit unit Examples.draw Examples.descend
               (NeuralNet.setattr
                  (NeuralNet.fit unit Examples.draw Examples.descend
                     (Examples.fresh_net true) tt)
                  "max_epochs" (NeuralNet.VInt 0)) tt)) = 10%nat
  /\ NeuralNet.history
       (NeuralNet.fit unit Examples.draw Examples.descend
          (NeuralNet.setattr
             (NeuralNet.fit unit Examples.draw Examples.descend
                (Examples.fresh_net false) tt)
             "max_epochs" (NeuralNet.VInt 0)) tt) = [].
Proof. split; vm_compute; reflexivity. Qed.

Lemma unknown_keywords_reported_together_witness :
  NeuralNet.__init__ Examples.recognized Examples.two_typos 0
  = Raise (TypeError
      "__init__() got unexpected argument(s) mxa_epochs, bathc_size.Either you made a typo, or you added new arguments in a subclass; if that is the case, the subclass should deal with the new arguments explicitely.").
Proof.
  destruct (unknown_keywords_reported_together Examples.recognized
              Examples.two_typos 0) as (Hraise & _).
  rewrite Hraise; [vm_compute; reflexivity|vm_compute; discriminate].
Defined.

Lemma checkpoint_needs_initialized_net_witness :
  NeuralNet.save_params (Examples.fresh_net false) "testmodel.pkl" ∅
  = (Raise (NotInitializedError
       "Cannot save parameters of an un-initialized model. Please initialize first by calling .initialize() or by fitting the model with .fit(...)."),
     ∅)
  /\ NeuralNet.load_params (Examples.fresh_net false) "testmodel.pkl" ∅
     = (Raise (NotInitializedError
          "Cannot load parameters of an un-initialized model. Please initialize first by calling .initialize() or by fitting the model with .fit(...)."),
        ∅)
  /\ (forall files' : gmap string NeuralNet.Params,
        (NeuralNet.save_params (Examples.fresh_net false) "testmodel.pkl"
           files').1
        = (NeuralNet.save_params (Examples.fresh_net false) "testmodel.pkl"
             ∅).1
        /\ (NeuralNet.load_params (Examples.fresh_net false) "testmodel.pkl"
              files').1
           = (NeuralNet.load_params (Examples.fresh_net false)
                "testmodel.pkl" ∅).1).
Proof.
  apply (checkpoint_needs_initialized_net (Examples.fresh_net false)
           "testmodel.pkl" ∅).
  reflexivity.
Defined.

(** An initialized net, in contrast, does write and read the file. *)
Example checkpoint_round_trip :
  let net :=
    NeuralNet.fit unit Examples.draw Examples.descend
      (Examples.fresh_net false) tt in
  let files := (NeuralNet.save_params net "testmodel.pkl" ∅).2 in
  files !! "testmodel.pkl" = Some (NeuralNet.module_ net)
  /\ (NeuralNet.load_params net "testmodel.pkl" files).1 = Ok net.
Proof. split; vm_compute; reflexivity. Qed.

(** * Further properties *)

Section cyclic_wave.
Import CyclicLR.

Lemma Qfloor_unique (x : Q) (n : Z) :
  (inject_Z n <= x)%Q -> (x < inject_Z (n + 1))%Q -> Qfloor x = n.
Proof.
  intros Hle Hlt.
  pose proof (Qfloor_le x) as H1. pose proof (Qlt_floor x) as H2.
  assert (inject_Z (Qfloor x) < inject_Z (n + 1))%Q as H3 by Lqa.lra.
  assert (inject_Z n < inject_Z (Qfloor x + 1))%Q as H4 by Lqa.lra.
  rewrite <- Zlt_Qlt in H3, H4. lia.
Qed.

Lemma half_index (idx step : Z) :
  step <> 0%Z ->
  (inject_Z idx / inject_Z step == 2 * (inject_Z idx / (2 * inject_Z step)))%Q.
Proof. intros H. field. by apply inject_Z_nonzero. Qed.

(** The position in the cycle lies in the unit interval. *)
Lemma position_bounds (self : t) :
  step_size self <> 0%Z -> (0 <= position self <= 1)%Q.
Proof.
  intros Hs. split; [apply Qabs_nonneg|].
  unfold position. apply Qabs_Qle_condition.
  rewrite (half_index _ _ Hs). unfold cycle.
  set (u := (inject_Z (last_batch_idx self) / (2 * inject_Z (step_size self)))%Q).
  pose proof (Qfloor_le (1 + u)) as H1. pose proof (Qlt_floor (1 + u)) as H2.
  rewrite inject_Z_plus in H2. change (inject_Z 1) with 1%Q in H2.
  split; Lqa.lra.
Qed.

Lemma clamp_inactive (self : t) :
  step_size self <> 0%Z ->
  (Qmax 0 (1 - position self) == 1 - position self)%Q.
Proof.
  intros Hs. destruct (position_bounds self Hs) as [_ H].
  apply Q.max_r. Lqa.lra.
Qed.

(** Group by group, [get_lr] is the base rate plus the amplitude times
    [1 - x] times the scale. *)
Lemma get_lr_entries (self : t) (sc : Q) :
  step_size self <> 0%Z ->
  call_scale_fn self (scale_argument self) = Ok sc ->
  exists lrs,
    get_lr self = Ok lrs
    /\ Forall2 (fun lr bm =>
                  lr == bm.1 + (bm.2 - bm.1) * (1 - position self) * sc)%Q
         lrs (zip (base_lrs self) (max_lrs self)).
Proof.
  intros Hs Hsc. eexists. split; [by apply get_lr_value|].
  apply Forall2_fmap_l, Forall_Forall2_diag, Forall_forall.
  intros [b m] _. cbn. by rewrite (clamp_inactive self Hs).
Qed.

(** [X1]: for a step size other than 0 the position [x] that [get_lr]
    computes lies between 0 and 1 at every batch index, so the clamp
    [max(0, 1 - x)] never changes anything: each group's rate is
    [base_lr + (max_lr - base_lr) * (1 - x)] times the scale. *)
Theorem cyclic_clamp_never_bites (self : t) (sc : Q) :
  step_size self <> 0%Z ->
  call_scale_fn self (scale_argument self) = Ok sc ->
  (0 <= position self)%Q /\ (position self <= 1)%Q
  /\ exists lrs,
      get_lr self = Ok lrs
      /\ Forall2 (fun lr bm =>
                    lr == bm.1 + (bm.2 - bm.1) * (1 - position self) * sc)%Q
           lrs (zip (base_lrs self) (max_lrs self)).
Proof.
  intros Hs Hsc. destruct (position_bounds self Hs) as [H0 H1].
  split; [exact H0|]. split; [exact H1|]. by apply get_lr_entries.
Qed.

Lemma inject_Z_2 : inject_Z 2 = 2%Q.
Proof. reflexivity. Qed.

(** The cycle number of an index in the [c]-th stretch of
    [2 * step_size] batches. *)
Lemma cycle_spec (self : t) (c : Z) :
  (0 < step_size self)%Z ->
  (2 * step_size self * (c - 1) <= last_batch_idx self)%Z ->
  (last_batch_idx self < 2 * step_size self * c)%Z ->
  cycle self = c.
Proof.
  intros Hs Hlo Hhi. unfold cycle.
  assert (0 < 2 * inject_Z (step_size self))%Q as Hpos.
  { pose proof (inject_Z_pos _ Hs). Lqa.lra. }
  rewrite Zle_Qle in Hlo. rewrite Zlt_Qlt in Hhi.
  rewrite !inject_Z_mult, ?inject_Z_minus, inject_Z_2 in Hlo, Hhi.
  unfold Zminus in Hlo. rewrite inject_Z_plus, inject_Z_opp in Hlo.
  change (inject_Z 1) with 1%Q in Hlo.
  apply Qfloor_unique.
  - assert (inject_Z c - 1
            <= inject_Z (last_batch_idx self) / (2 * inject_Z (step_size self)))%Q.
    { apply Qle_shift_div_l; [done|]. Lqa.lra. }
    Lqa.lra.
  - rewrite inject_Z_plus. change (inject_Z 1) with 1%Q.
    assert (inject_Z (last_batch_idx self) / (2 * inject_Z (step_size self))
            < inject_Z c)%Q.
    { apply Qlt_shift_div_r; [done|]. Lqa.lra. }
    Lqa.lra.
Qed.

(** How far the wave has risen, [1 - x], on the two halves of the
    [c]-th cycle. *)
Lemma rise_in_cycle (self : t) (c : Z) :
  (0 < step_size self)%Z ->
  (2 * step_size self * (c - 1) <= last_batch_idx self)%Z ->
  (last_batch_idx self < 2 * step_size self * c)%Z ->
  ((last_batch_idx self <= 2 * step_size self * (c - 1) + step_size self)%Z ->
   (1 - position self
    == inject_Z (last_batch_idx self - 2 * step_size self * (c - 1))
       / inject_Z (step_size self))%Q)
  /\ ((2 * step_size self * (c - 1) + step_size self <= last_batch_idx self)%Z ->
      (1 - position self
       == inject_Z (2 * step_size self * c - last_batch_idx self)
          / inject_Z (step_size self))%Q).
Proof.
  intros Hs Hlo Hhi.
  pose proof (inject_Z_pos _ Hs) as Hpos.
  assert (~ inject_Z (step_size self) == 0)%Q as Hnz by Lqa.lra.
  unfold position. rewrite (cycle_spec self c Hs Hlo Hhi).
  split; intros Hhalf.
  - rewrite Qabs_neg.
    + unfold Zminus. rewrite inject_Z_plus, inject_Z_opp, !inject_Z_mult.
      rewrite inject_Z_plus, inject_Z_opp, inject_Z_2.
      change (inject_Z 1) with 1%Q. by field.
    + assert (inject_Z (last_batch_idx self) / inject_Z (step_size self)
              <= 2 * inject_Z c - 1)%Q; [|Lqa.lra].
      apply Qle_shift_div_r; [done|].
      rewrite Zle_Qle in Hhalf.
      rewrite inject_Z_plus, !inject_Z_mult in Hhalf. unfold Zminus in Hhalf.
      rewrite inject_Z_plus, inject_Z_opp, inject_Z_2 in Hhalf.
      change (inject_Z 1) with 1%Q in Hhalf. Lqa.lra.
  - rewrite Qabs_pos.
    + unfold Zminus. rewrite inject_Z_plus, inject_Z_opp, !inject_Z_mult.
      rewrite inject_Z_2. by field.
    + assert (2 * inject_Z c - 1
              <= inject_Z (last_batch_idx self) / inject_Z (step_size self))%Q;
        [|Lqa.lra].
      apply Qle_shift_div_l; [done|].
      rewrite Zle_Qle in Hhalf.
      rewrite inject_Z_plus, !inject_Z_mult in Hhalf. unfold Zminus in Hhalf.
      rewrite inject_Z_plus, inject_Z_opp, inject_Z_2 in Hhalf.
      change (inject_Z 1) with 1%Q in Hhalf. Lqa.lra.
Qed.


Lemma wave_in_cycle (self : t) (c : Z) (sc : Q) :
  (0 < step_size self)%Z ->
  (2 * step_size self * (c - 1) <= last_batch_idx self)%Z ->
  (last_batch_idx self < 2 * step_size self * c)%Z ->
  call_scale_fn self (scale_argument self) = Ok sc ->
  exists lrs,
    get_lr self = Ok lrs
    /\ ((last_batch_idx self <= 2 * step_size self * (c - 1) + step_size self)%Z ->
        Forall2 (fun lr bm =>
                   lr == bm.1 + (bm.2 - bm.1)
                         * (inject_Z (last_batch_idx self
                                      - 2 * step_size self * (c - 1))
                            / inject_Z (step_size self)) * sc)%Q
          lrs (zip (base_lrs self) (max_lrs self)))
    /\ ((2 * step_size self * (c - 1) + step_size self <= last_batch_idx self)%Z ->
        Forall2 (fun lr bm =>
                   lr == bm.1 + (bm.2 - bm.1)
                         * (inject_Z (2 * step_size self * c
                                      - last_batch_idx self)
                            / inject_Z (step_size self)) * sc)%Q
          lrs (zip (base_lrs self) (max_lrs self))).
Proof.
  intros Hs Hlo Hhi Hsc.
  destruct (get_lr_entries self sc) as (lrs & Hlr & Hall); [lia|done|].
  destruct (rise_in_cycle self c Hs Hlo Hhi) as [Hup Hdown].
  exists lrs. split; [exact Hlr|].
  split; intros Hhalf; (eapply Forall2_impl; [exact Hall|]);
    intros lr [b m] E; cbn in *; rewrite E;
    [rewrite (Hup Hhalf)|rewrite (Hdown Hhalf)]; reflexivity.
Qed.

Lemma in_mode_triangular (self : t) :
  in_mode "triangular" self ->
  scale_fn self = _triangular_scale_fn /\ scale_mode self = "cycle".
Proof. unfold in_mode. by inversion 1. Qed.

Lemma in_mode_triangular2 (self : t) :
  in_mode "triangular2" self ->
  scale_fn self = _triangular2_scale_fn /\ scale_mode self = "cycle".
Proof. unfold in_mode. by inversion 1. Qed.

(** [X2]: in [triangular] mode with a positive step size the rate of
    every group is the triangular wave: within the [c]-th stretch of
    [2 * step_size] batches it rises linearly from [base_lr] to [max_lr]
    over the first [step_size] batches and falls back linearly over the
    next [step_size]. *)
Theorem triangular_wave (self : t) (c : Z) :
  in_mode "triangular" self ->
  (0 < step_size self)%Z ->
  (2 * step_size self * (c - 1) <= last_batch_idx self)%Z ->
  (last_batch_idx self < 2 * step_size self * c)%Z ->
  exists lrs,
    get_lr self = Ok lrs
    /\ ((last_batch_idx self <= 2 * step_size self * (c - 1) + step_size self)%Z ->
        Forall2 (fun lr bm =>
                   lr == bm.1 + (bm.2 - bm.1)
                         * (inject_Z (last_batch_idx self
                                      - 2 * step_size self * (c - 1))
                            / inject_Z (step_size self)))%Q
          lrs (zip (base_lrs self) (max_lrs self)))
    /\ ((2 * step_size self * (c - 1) + step_size self <= last_batch_idx self)%Z ->
        Forall2 (fun lr bm =>
                   lr == bm.1 + (bm.2 - bm.1)
                         * (inject_Z (2 * step_size self * c
                                      - last_batch_idx self)
                            / inject_Z (step_size self)))%Q
          lrs (zip (base_lrs self) (max_lrs self))).
Proof.
  intros Hmode Hs Hlo Hhi.
  apply in_mode_triangular in Hmode as [Hfn _].
  destruct (wave_in_cycle self c 1%Q Hs Hlo Hhi) as (lrs & Hlr & Hup & Hdown).
  { unfold call_scale_fn. by rewrite Hfn. }
  exists lrs. split; [exact Hlr|].
  split; intros Hhalf;
    (eapply Forall2_impl; [first [by apply Hup|by apply Hdown]|]);
    intros lr [b m] E; cbn in *; rewrite E; ring.
Qed.

(** [X3]: in [triangular2] mode the same wave has its amplitude
    divided by [2 ^ (c - 1)] in the [c]-th cycle: it halves from each
    cycle to the next. *)
Theorem triangular2_wave (self : t) (c : Z) :
  in_mode "triangular2" self ->
  (0 < step_size self)%Z ->
  (2 * step_size self * (c - 1) <= last_batch_idx self)%Z ->
  (last_batch_idx self < 2 * step_size self * c)%Z ->
  exists lrs,
    get_lr self = Ok lrs
    /\ ((last_batch_idx self <= 2 * step_size self * (c - 1) + step_size self)%Z ->
        Forall2 (fun lr bm =>
                   lr == bm.1 + (bm.2 - bm.1)
                         * (inject_Z (last_batch_idx self
                                      - 2 * step_size self * (c - 1))
                            / inject_Z (step_size self))
                         / 2 ^ (c - 1))%Q
          lrs (zip (base_lrs self) (max_lrs self)))
    /\ ((2 * step_size self * (c - 1) + step_size self <= last_batch_idx self)%Z ->
        Forall2 (fun lr bm =>
                   lr == bm.1 + (bm.2 - bm.1)
                         * (inject_Z (2 * step_size self * c
                                      - last_batch_idx self)
                            / inject_Z (step_size self))
                         / 2 ^ (c - 1))%Q
          lrs (zip (base_lrs self) (max_lrs self))).
Proof.
  intros Hmode Hs Hlo Hhi.
  apply in_mode_triangular2 in Hmode as [Hfn Hsm].
  destruct (wave_in_cycle self c (1 / 2 ^ (c - 1))%Q Hs Hlo Hhi)
    as (lrs & Hlr & Hup & Hdown).
  { unfold call_scale_fn, scale_argument.
    by rewrite Hfn, Hsm, String.eqb_refl, (cycle_spec self c Hs Hlo Hhi). }
  exists lrs. split; [exact Hlr|].
  split; intros Hhalf;
    (eapply Forall2_impl; [first [by apply Hup|by apply Hdown]|]);
    intros lr [b m] E; cbn in *; rewrite E; unfold Qdiv; ring.
Qed.


Lemma Qpower_le_one (q : Q) (n : Z) :
  (0 <= q)%Q -> (q <= 1)%Q -> (0 <= n)%Z -> (q ^ n <= 1)%Q.
Proof.
  intros H0 H1 Hn. pattern n. apply natlike_ind; [| |exact Hn].
  - cbn. Lqa.lra.
  - intros x Hx IH. unfold Z.succ. rewrite Qpower_plus' by lia.
    rewrite Qpower_1_r. pose proof (Qpower_0_le q x H0). Lqa.nra.
Qed.

Lemma cycle_ge_1 (self : t) :
  (0 < step_size self)%Z -> (0 <= last_batch_idx self)%Z ->
  (1 <= cycle self)%Z.
Proof.
  intros Hs Hidx. unfold cycle.
  rewrite <- (Qfloor_Z 1) at 1. apply Qfloor_resp_le.
  change (inject_Z 1) with 1%Q.
  assert (0 <= inject_Z (last_batch_idx self)
               / (2 * inject_Z (step_size self)))%Q; [|Lqa.lra].
  apply Qle_shift_div_l.
  - pose proof (inject_Z_pos _ Hs). Lqa.lra.
  - rewrite Qmult_0_l. change 0%Q with (inject_Z 0). by rewrite <- Zle_Qle.
Qed.

(** In the built-in modes the scale lies in the unit interval from
    batch index 0 on, [exp_range] needing [0 <= gamma <= 1] for it. *)
Lemma builtin_scale_bounds (m : string) (self : t) :
  in_mode m self ->
  (0 < step_size self)%Z -> (0 <= last_batch_idx self)%Z ->
  (m = "exp_range" -> (0 <= gamma self)%Q /\ (gamma self <= 1)%Q) ->
  exists sc,
    call_scale_fn self (scale_argument self) = Ok sc
    /\ (0 <= sc)%Q /\ (sc <= 1)%Q.
Proof.
  unfold in_mode, call_scale_fn, scale_argument.
  intros Hmode Hs Hidx Hgamma. inversion Hmode as [E1 E2 E3|E1 E2 E3|E1 E2 E3].
  - exists 1%Q. split; [done|]. split; Lqa.lra.
  - exists (1 / 2 ^ (cycle self - 1))%Q. split; [done|].
    pose proof (cycle_ge_1 self Hs Hidx) as Hc.
    assert (1 <= 2 ^ (cycle self - 1))%Q as Hp.
    { apply Qpower_1_le; [Lqa.lra|lia]. }
    split.
    + apply Qle_shift_div_l; Lqa.lra.
    + apply Qle_shift_div_r; Lqa.lra.
  - destruct Hgamma as [H0 H1]; [done|].
    exists (gamma self ^ last_batch_idx self)%Q. cbn.
    split; [by apply py_pow_ok; right|].
    split; [by apply Qpower_0_le|by apply Qpower_le_one].
Qed.

(** [X4]: in each built-in mode, with a positive step size, from batch
    index 0 on and, for [exp_range], with [gamma] between 0 and 1, the
    rate of every group whose [base_lr] is at most its [max_lr] stays
    between the two. *)
Theorem cyclic_lr_within_bounds (m : string) (self : t) :
  in_mode m self ->
  (0 < step_size self)%Z ->
  (0 <= last_batch_idx self)%Z ->
  (m = "exp_range" -> (0 <= gamma self)%Q /\ (gamma self <= 1)%Q) ->
  Forall (fun bm => bm.1 <= bm.2)%Q (zip (base_lrs self) (max_lrs self)) ->
  exists lrs,
    get_lr self = Ok lrs
    /\ Forall2 (fun lr bm => bm.1 <= lr /\ lr <= bm.2)%Q
         lrs (zip (base_lrs self) (max_lrs self)).
Proof.
  intros Hmode Hs Hidx Hgamma Hle.
  destruct (builtin_scale_bounds m self Hmode Hs Hidx Hgamma)
    as (sc & Hsc & Hsc0 & Hsc1).
  eexists. split; [apply get_lr_value; [lia|exact Hsc]|].
  apply Forall2_fmap_l, Forall_Forall2_diag.
  eapply Forall_impl; [exact Hle|]. intros [b mx] Hbm.
  unfold compose. cbn [fst snd] in *.
  destruct (position_bounds self) as [Hx0 Hx1]; [lia|].
  pose proof (clamp_inactive self ltac:(lia)) as Hw.
  set (w := Qmax 0 (1 - position self)) in *.
  assert (0 <= (mx - b) * w)%Q as Hp0 by Lqa.nra.
  assert ((mx - b) * w <= mx - b)%Q as Hp1 by Lqa.nra.
  set (p := ((mx - b) * w)%Q) in *.
  assert (0 <= p * sc)%Q by (by apply Qmult_le_0_compat).
  assert (p * sc <= p)%Q by Lqa.nra.
  clearbody p w. split; Lqa.lra.
Qed.

End cyclic_wave.

Section cyclic_store.
Import CyclicLR.

Lemma set_lrs_again (groups : list param_group) (lrs lrs' : list Q) :
  length lrs = length lrs' ->
  set_lrs (set_lrs groups lrs) lrs' = set_lrs groups lrs'.
Proof.
  revert lrs lrs'. induction groups as [|g groups IH];
    intros [|x lrs] [|y lrs'] Hlen; try discriminate; try reflexivity.
  cbn. rewrite insert_insert_eq. f_equal. apply IH. by injection Hlen.
Qed.

Lemma deref_insert (h : store) (l : loc) (o : pyobj) :
  deref (<[l := o]> h) l = o.
Proof. unfold deref. by rewrite lookup_insert_eq. Qed.

Lemma batch_step_ok (self : t) (b : option Z) (h : store) opt lrs :
  deref h (optimizer self) = PyOptimizer opt ->
  get_lr (set_last_batch_idx self
            (match b with Some i => i | None => last_batch_idx self + 1 end)%Z)
  = Ok lrs ->
  batch_step self b h
  = (Ok (set_last_batch_idx self
           (match b with Some i => i | None => last_batch_idx self + 1 end)%Z),
     <[optimizer self :=
         PyOptimizer {| param_groups := set_lrs (param_groups opt) lrs |}]> h).
Proof.
  intros Hd Hlr.
  unfold batch_step, mbind, M_bind, load, lift, raise, store_at, mret, M_ret.
  cbn [optimizer set_last_batch_idx]. rewrite Hd.
  destruct b; by rewrite Hlr.
Qed.

(** [X5]: a constructor call that raises, whatever it raises, leaves
    the store, and with it the optimizer, as it was. *)
Theorem cyclic_init_failure_keeps_store
    l base_lr max_lr step m g sfn sm last h e h' :
  __init__ l base_lr max_lr step m g sfn sm last h = (Raise e, h') ->
  h' = h.
Proof.
  unfold __init__, mbind at 1, M_bind at 1, load.
  destruct (deref h l) as [opt|ty]; [|by intros [= _ <-]].
  unfold mbind at 1, M_bind at 1, lift.
  destruct (_format_lr _ _ "base_lr" opt base_lr) as [bl|e1];
    [|by intros [= _ <-]].
  unfold mbind at 1, M_bind at 1.
  destruct (_format_lr _ _ "max_lr" opt max_lr) as [ml|e1];
    [|by intros [= _ <-]].
  destruct (negb (bool_decide (m ∈ builtin_modes)) && is_None sfn);
    [by intros [= _ <-]|].
  match goal with
  | |- context [let '(_, _) := ?p in _] => destruct p as [fn sm']
  end.
  unfold mbind, M_bind.
  match goal with
  | |- context [batch_step ?s ?b h] =>
      destruct (batch_step s b h) as [[s'|e1] h1] eqn:Hbs
  end.
  - discriminate.
  - intros [= _ <-]. by eapply batch_step_raises.
Qed.

(** [X6]: the constructor's own errors, in the order it checks: an
    object that is not an optimizer is a [TypeError] naming its type,
    whatever the other arguments; a mode outside the three built-in ones
    without a scale function is a [ValueError], whatever the step size;
    and a step size of 0 is a [ZeroDivisionError] from the first
    [batch_step].  In each case the store is untouched. *)
Theorem cyclic_init_errors (h : store) (l : loc) :
  (forall ty base_lr max_lr step m g sfn sm last,
      deref h l = PyObject ty ->
      __init__ l base_lr max_lr step m g sfn sm last h
      = (Raise (TypeError (ty ++ " is not an Optimizer")), h))
  /\ (forall opt base_lr max_lr bl ml step m g sm last,
        deref h l = PyOptimizer opt ->
        _format_lr Qmult 1%Q "base_lr" opt base_lr = Ok bl ->
        _format_lr Qmult 1%Q "max_lr" opt max_lr = Ok ml ->
        m ∉ builtin_modes ->
        __init__ l base_lr max_lr step m g None sm last h
        = (Raise (ValueError "mode is invalid and scale_fn is None"), h))
  /\ (forall opt base_lr max_lr bl ml m g sfn sm last,
        deref h l = PyOptimizer opt ->
        _format_lr Qmult 1%Q "base_lr" opt base_lr = Ok bl ->
        _format_lr Qmult 1%Q "max_lr" opt max_lr = Ok ml ->
        (m ∈ builtin_modes \/ is_None sfn = false) ->
        __init__ l base_lr max_lr 0 m g sfn sm last h
        = (Raise ZeroDivisionError, h)).
Proof.
  repeat apply conj.
  - intros ty base_lr max_lr step m g sfn sm last Hd.
    unfold __init__, mbind, M_bind, load. by rewrite Hd.
  - intros opt base_lr max_lr bl ml step m g sm last Hd Hb Hm Hmode.
    unfold __init__, mbind, M_bind, load, lift. rewrite Hd, Hb, Hm.
    by rewrite bool_decide_eq_false_2.
  - intros opt base_lr max_lr bl ml m g sfn sm last Hd Hb Hm Hmode.
    unfold __init__, mbind at 1, M_bind at 1, load. rewrite Hd.
    unfold mbind at 1, M_bind at 1, lift. rewrite Hb.
    unfold mbind at 1, M_bind at 1. rewrite Hm.
    assert (negb (bool_decide (m ∈ builtin_modes)) && is_None sfn = false)
      as ->.
    { destruct Hmode as [Hin| ->]; [|apply andb_false_r].
      by rewrite bool_decide_eq_true_2. }
    match goal with
    | |- context [let '(_, _) := ?p in _] => destruct p as [fn sm']
    end.
    unfold batch_step, mbind, M_bind, load, lift. cbn [optimizer set_last_batch_idx].
    rewrite Hd. by rewrite get_lr_zero_step.
Qed.

(** [X7]: the first [batch_step()] after construction applies the same
    batch index as the constructor did, [last_batch_idx + 1]: it leaves
    the store exactly as the constructor left it. *)
Theorem first_batch_step_repeats_construction
    l base_lr max_lr step m g sfn sm last h self h' :
  __init__ l base_lr max_lr step m g sfn sm last h = (Ok self, h') ->
  batch_step self None h'
  = (Ok (set_last_batch_idx self (last + 1)), h').
Proof.
  intros Hinit.
  apply init_inv in Hinit
    as (opt & lrs & Hd & _ & _ & Ho & _ & _ & _ & Hl & _ & _ & Hlr & ->).
  rewrite (batch_step_ok self None _
             {| param_groups := set_lrs (param_groups opt) lrs |} lrs).
  - rewrite Hl, Ho. cbn [param_groups].
    rewrite set_lrs_again by done. by rewrite insert_insert_eq.
  - rewrite Ho. apply deref_insert.
  - by rewrite Hl.
Qed.

(** [X8]: what [batch_step(j)] leaves behind does not depend on
    earlier steps: after any successful step it yields the scheduler and
    the store that it yields on its own. *)
Theorem batch_step_forgets_earlier_steps
    (self self1 self2 : t) (i : option Z) (j : Z) (h h1 h2 : store) :
  batch_step self i h = (Ok self1, h1) ->
  batch_step self (Some j) h = (Ok self2, h2) ->
  batch_step self1 (Some j) h1 = (Ok self2, h2).
Proof.
  intros H1 H2.
  apply batch_step_inv in H1 as (opt & lrs1 & Hd & -> & Hlr1 & ->).
  apply batch_step_inv in H2 as (opt' & lrs2 & Hd' & -> & Hlr2 & ->).
  rewrite Hd in Hd'. injection Hd' as <-.
  rewrite (batch_step_ok _ (Some j) _
             {| param_groups := set_lrs (param_groups opt) lrs1 |} lrs2).
  - cbn [optimizer set_last_batch_idx param_groups].
    rewrite insert_insert_eq, set_lrs_again; [done|].
    apply get_lr_length in Hlr1, Hlr2. cbn in *. congruence.
  - apply deref_insert.
  - exact Hlr2.
Qed.

(** [X9]: a successful [batch_step] changes nothing in the store but
    the optimizer of the scheduler, there neither the number of groups
    nor any entry other than [lr], and of the scheduler only the batch
    index. *)
Theorem batch_step_frame (self self' : t) (b : option Z) (h h' : store) :
  batch_step self b h = (Ok self', h') ->
  (forall l' : loc, l' <> optimizer self -> h' !! l' = h !! l')
  /\ exists opt opt',
      deref h (optimizer self) = PyOptimizer opt
      /\ deref h' (optimizer self) = PyOptimizer opt'
      /\ length (param_groups opt') = length (param_groups opt)
      /\ (forall key : string, key <> "lr" ->
            Forall2 (fun g0 g' : param_group => g' !! key = g0 !! key)
              (param_groups opt) (param_groups opt'))
      /\ self' = set_last_batch_idx self (last_batch_idx self').
Proof.
  intros H. apply batch_step_inv in H as (opt & lrs & Hd & -> & Hlr & ->).
  split; [intros l' Hl'; by rewrite lookup_insert_ne|].
  eexists opt, _. split; [exact Hd|]. split; [apply deref_insert|].
  cbn [param_groups]. split; [apply set_lrs_length|].
  split; [intros key Hkey; by apply set_lrs_frame|reflexivity].
Qed.

Lemma get_lr_defined (self : t) (idx : Z) :
  step_size self <> 0%Z ->
  (scale_fn self = _exp_range_scale_fn -> scale_mode self = "iterations") ->
  (0 <= idx)%Z ->
  exists lrs, get_lr (set_last_batch_idx self idx) = Ok lrs.
Proof.
  intros Hs Hexp Hidx.
  assert (exists sc,
            call_scale_fn (set_last_batch_idx self idx)
              (scale_argument (set_last_batch_idx self idx)) = Ok sc)
    as [sc Hsc].
  { unfold call_scale_fn, scale_argument. cbn [scale_fn gamma scale_mode
      set_last_batch_idx last_batch_idx].
    destruct (scale_fn self) eqn:Hfn; eauto.
    rewrite Hexp by done. cbn [String.eqb Ascii.eqb Bool.eqb].
    rewrite py_pow_ok by (by right). eauto. }
  eexists. by apply get_lr_value.
Qed.

Lemma batch_steps_run (n : nat) :
  forall (self : t) (h : store) (opt : Optimizer),
    step_size self <> 0%Z ->
    (scale_fn self = _exp_range_scale_fn -> scale_mode self = "iterations") ->
    deref h (optimizer self) = PyOptimizer opt ->
    (-1 <= last_batch_idx self)%Z ->
    exists lrs,
      get_lr (set_last_batch_idx self (last_batch_idx self + Z.of_nat (S n)))
      = Ok lrs
      /\ batch_steps (S n) self h
         = (Ok (set_last_batch_idx self
                  (last_batch_idx self + Z.of_nat (S n))),
            <[optimizer self :=
                PyOptimizer {| param_groups := set_lrs (param_groups opt) lrs |}]>
              h).
Proof.
  induction n as [|n IH]; intros self h opt Hs Hexp Hd Hlast.
  - destruct (get_lr_defined self (last_batch_idx self + 1) Hs Hexp)
      as [lrs Hlr]; [lia|].
    exists lrs. split; [exact Hlr|].
    cbn [batch_steps]. unfold mbind, M_bind.
    by rewrite (batch_step_ok self None h opt lrs Hd Hlr).
  - destruct (get_lr_defined self (last_batch_idx self + 1) Hs Hexp)
      as [lrs1 Hlr1]; [lia|].
    change (batch_steps (S (S n)) self h)
      with (batch_step self None ≫= batch_steps (S n) $ h).
    unfold mbind, M_bind.
    rewrite (batch_step_ok self None h opt lrs1 Hd Hlr1).
    destruct (IH (set_last_batch_idx self (last_batch_idx self + 1))
                (<[optimizer self :=
                     PyOptimizer
                       {| param_groups := set_lrs (param_groups opt) lrs1 |}]> h)
                {| param_groups := set_lrs (param_groups opt) lrs1 |})
      as (lrs & Hlr & Hrun); [done|done|apply deref_insert|cbn; lia|].
    cbn [set_last_batch_idx last_batch_idx optimizer param_groups] in Hlr, Hrun.
    replace (last_batch_idx self + 1 + Z.of_nat (S n))%Z
      with (last_batch_idx self + Z.of_nat (S (S n)))%Z in Hlr, Hrun by lia.
    exists lrs. split; [exact Hlr|].
    rewrite Hrun. rewrite insert_insert_eq, set_lrs_again; [done|].
    apply get_lr_length in Hlr1, Hlr. cbn in *. congruence.
Qed.

(** [X10]: the loop of the docstring.  After construction with
    [last_batch_idx >= -1] the [k]-th call of [batch_step()] succeeds and
    leaves the optimizer with the schedule's rates at batch index
    [last_batch_idx + k], which is then the stored index. *)
Theorem training_loop_follows_schedule
    l base_lr max_lr step m g sfn sm last h self h' (n : nat) :
  __init__ l base_lr max_lr step m g sfn sm last h = (Ok self, h') ->
  (-1 <= last)%Z ->
  exists opt lrs,
    deref h l = PyOptimizer opt
    /\ get_lr (set_last_batch_idx self (last + Z.of_nat (S n))) = Ok lrs
    /\ batch_steps (S n) self h'
       = (Ok (set_last_batch_idx self (last + Z.of_nat (S n))),
          <[l := PyOptimizer
                   {| param_groups := set_lrs (param_groups opt) lrs |}]> h).
Proof.
  intros Hinit Hlast.
  apply init_inv in Hinit
    as (opt & lrs0 & Hd & _ & _ & Ho & Hs & _ & _ & Hl & Hnone & Hsome
        & Hlr0 & ->).
  assert (step_size self <> 0%Z) as Hstep.
  { intros Hz. rewrite get_lr_zero_step in Hlr0 by done. discriminate. }
  assert (scale_fn self = _exp_range_scale_fn -> scale_mode self = "iterations")
    as Hexp.
  { destruct sfn as [f|].
    - destruct (Hsome f eq_refl) as [-> _]. discriminate.
    - specialize (Hnone eq_refl). unfold in_mode in Hnone.
      inversion Hnone; congruence. }
  destruct (batch_steps_run n self
              (<[l := PyOptimizer
                        {| param_groups := set_lrs (param_groups opt) lrs0 |}]> h)
              {| param_groups := set_lrs (param_groups opt) lrs0 |})
    as (lrs & Hlr & Hrun); [done|done|rewrite Ho; apply deref_insert|lia|].
  rewrite Hl, Ho in *. cbn [param_groups] in Hrun.
  exists opt, lrs. split; [exact Hd|]. split; [exact Hlr|].
  rewrite Hrun, insert_insert_eq, set_lrs_again; [done|].
  apply get_lr_length in Hlr0, Hlr. cbn in *. congruence.
Qed.

End cyclic_store.

Section warm_restart_shape.
Import WarmRestartLR.

Lemma period_start_mono (b m : Z) (k n : nat) :
  (0 < b)%Z -> (0 < m)%Z -> (k < n)%nat ->
  (period_start b m k + (b * m ^ Z.of_nat k + 1) <= period_start b m n)%Z.
Proof.
  intros Hb Hm. induction n as [|n IH]; [lia|]. intros Hk.
  change (period_start b m (S n))
    with (period_start b m n + (b * m ^ Z.of_nat n + 1))%Z.
  destruct (decide (k = n)) as [->|Hne]; [lia|].
  assert (0 < b * m ^ Z.of_nat n)%Z.
  { apply Z.mul_pos_pos; [done|]. apply Z.pow_pos_nonneg; lia. }
  specialize (IH ltac:(lia)). lia.
Qed.

Lemma period_start_nonneg (b m : Z) (n : nat) :
  (0 < b)%Z -> (0 < m)%Z -> (0 <= period_start b m n)%Z.
Proof.
  intros Hb Hm. induction n as [|n IH]; [done|].
  change (period_start b m (S n))
    with (period_start b m n + (b * m ^ Z.of_nat n + 1))%Z.
  assert (0 < b * m ^ Z.of_nat n)%Z; [|lia].
  apply Z.mul_pos_pos; [done|]. apply Z.pow_pos_nonneg; lia.
Qed.

Lemma half_cosine_proper (mn mx : R) (e e' P P' : Q) :
  (e == e')%Q -> (P == P')%Q ->
  half_cosine mn mx e P = half_cosine mn mx e' P'.
Proof.
  intros He HP. unfold half_cosine.
  by rewrite (Qeq_eqR _ _ He), (Qeq_eqR _ _ HP).
Qed.

Lemma get_lr_in_period (self : t) (n : nat) :
  (0 < base_period self)%Z ->
  (0 < period_mult self)%Z ->
  length (min_lr self) = length (max_lr self) ->
  (period_start (base_period self) (period_mult self) n <= last_epoch self)%Z ->
  (last_epoch self
   <= period_start (base_period self) (period_mult self) n
      + base_period self * period_mult self ^ Z.of_nat n)%Z ->
  forall fuel,
    (Z.to_nat (last_epoch self) < fuel)%nat ->
    get_lr fuel self
    = Some (Ok (zip_with
                  (fun mn mx =>
                     half_cosine mn mx
                       (inject_Z
                          (last_epoch self
                           - period_start (base_period self)
                               (period_mult self) n))
                       (inject_Z
                          (base_period self
                           * period_mult self ^ Z.of_nat n)))
                  (min_lr self) (max_lr self))).
Proof.
  intros Hbase Hmult Hlen Hlo Hhi fuel Hfuel.
  destruct (restart_loop_integers (period_mult self)
              (Z.to_nat (last_epoch self)) Hmult (last_epoch self)
              (base_period self) (inject_Z (last_epoch self))
              (inject_Z (base_period self)))
    as (e & P & k & Hloop & HP & He & Hup & Hlow);
    [done|lia|reflexivity|reflexivity|].
  pose proof (period_start_nonneg _ _ n Hbase Hmult) as Hn0.
  specialize (Hlow ltac:(lia)).
  assert (k = n) as ->.
  { destruct (Nat.lt_trichotomy k n) as [Hlt|[E|Hgt]]; [|exact E|].
    - pose proof (period_start_mono _ _ k n Hbase Hmult Hlt). lia.
    - pose proof (period_start_mono _ _ n k Hbase Hmult Hgt). lia. }
  assert (0 < base_period self * period_mult self ^ Z.of_nat n)%Z as Hpos.
  { apply Z.mul_pos_pos; [done|]. apply Z.pow_pos_nonneg; lia. }
  unfold get_lr.
  rewrite (restart_loop_fuel_le _ (S (Z.to_nat (last_epoch self))) fuel
             _ _ _ ltac:(lia) Hloop).
  rewrite get_current_lr_value by (done || by eapply period_nonzero).
  do 2 f_equal. apply zip_with_ext; [|done|done].
  intros mn mx. by apply half_cosine_proper.
Qed.

(** [X11]: the warm-restart schedule in closed form.  The [n]-th
    period starts at epoch [period_start n] and has length
    [base_period * period_mult ^ n]; at an epoch within it [get_lr]
    returns the half cosine at the offset from the period's start. *)
Theorem warm_restart_closed_form (self : t) (n : nat) :
  (0 < base_period self)%Z ->
  (0 < period_mult self)%Z ->
  length (min_lr self) = length (max_lr self) ->
  (period_start (base_period self) (period_mult self) n <= last_epoch self)%Z ->
  (last_epoch self
   <= period_start (base_period self) (period_mult self) n
      + base_period self * period_mult self ^ Z.of_nat n)%Z ->
  forall fuel,
    (Z.to_nat (last_epoch self) < fuel)%nat ->
    get_lr fuel self
    = Some (Ok (zip_with
                  (fun mn mx =>
                     half_cosine mn mx
                       (inject_Z
                          (last_epoch self
                           - period_start (base_period self)
                               (period_mult self) n))
                       (inject_Z
                          (base_period self
                           * period_mult self ^ Z.of_nat n)))
                  (min_lr self) (max_lr self))).
Proof. apply get_lr_in_period. Qed.

Lemma zip_with_right {A B} (a : list A) (b : list B) :
  length a = length b -> zip_with (fun _ y => y) a b = b.
Proof.
  revert b. induction a as [|x a IH]; intros [|y b] H; try discriminate;
    [reflexivity|].
  cbn. f_equal. apply IH. by injection H.
Qed.

Lemma zip_with_left {A B} (a : list A) (b : list B) :
  length a = length b -> zip_with (fun x _ => x) a b = a.
Proof.
  revert b. induction a as [|x a IH]; intros [|y b] H; try discriminate;
    [reflexivity|].
  cbn. f_equal. apply IH. by injection H.
Qed.

(** [X12]: at the first epoch of every period each rate is back at
    [max_lr], and at its last epoch it is [min_lr]. *)
Theorem warm_restart_period_ends (self : t) (n : nat) :
  (0 < base_period self)%Z ->
  (0 < period_mult self)%Z ->
  length (min_lr self) = length (max_lr self) ->
  let start := period_start (base_period self) (period_mult self) n in
  let stop := (start + base_period self * period_mult self ^ Z.of_nat n)%Z in
  (forall fuel, (Z.to_nat start < fuel)%nat ->
     get_lr fuel (set_last_epoch self start) = Some (Ok (max_lr self)))
  /\ (forall fuel, (Z.to_nat stop < fuel)%nat ->
        get_lr fuel (set_last_epoch self stop) = Some (Ok (min_lr self))).
Proof.
  intros Hbase Hmult Hlen start stop.
  assert (0 < base_period self * period_mult self ^ Z.of_nat n)%Z as Hpos.
  { apply Z.mul_pos_pos; [done|]. apply Z.pow_pos_nonneg; lia. }
  split; intros fuel Hfuel.
  - rewrite (get_lr_in_period (set_last_epoch self start) n)
      by (cbn; fold start; done || lia).
    cbn [set_last_epoch min_lr max_lr base_period period_mult last_epoch].
    fold start. do 2 f_equal.
    rewrite <- (zip_with_right (min_lr self) (max_lr self) Hlen) at 2.
    apply zip_with_ext; [|done|done]. intros mn mx.
    etrans; [|apply (half_cosine_start mn mx)].
    apply half_cosine_proper; [|reflexivity]. by rewrite Z.sub_diag.
  - rewrite (get_lr_in_period (set_last_epoch self stop) n)
      by (cbn; fold start; fold stop; done || lia).
    cbn [set_last_epoch min_lr max_lr base_period period_mult last_epoch].
    fold start. do 2 f_equal.
    rewrite <- (zip_with_left (min_lr self) (max_lr self) Hlen) at 2.
    apply zip_with_ext; [|done|done]. intros mn mx.
    etrans; [|apply (half_cosine_end mn mx
                       (inject_Z (base_period self
                                  * period_mult self ^ Z.of_nat n)))].
    + apply half_cosine_proper; [|reflexivity].
      apply inject_Z_eq. unfold stop. lia.
    + pose proof (inject_Z_pos _ Hpos). Lqa.lra.
Qed.

(** [X13]: whatever [get_lr] returns lies, group by group, between
    [min_lr] and [max_lr], provided each [min_lr] is at most its
    [max_lr]. *)
Theorem warm_restart_within_bounds (self : t) (fuel : nat) (lrs : list R) :
  length (min_lr self) = length (max_lr self) ->
  Forall2 Rle (min_lr self) (max_lr self) ->
  get_lr fuel self = Some (Ok lrs) ->
  Forall2 (fun lr mm => mm.1 <= lr /\ lr <= mm.2)%R
    lrs (zip (min_lr self) (max_lr self)).
Proof.
  intros Hlen Hle. unfold get_lr.
  destruct (restart_loop _ _ _ _) as [[[e P]|err]|]; try discriminate.
  intros [= H]. destruct (Qeq_bool P 0) eqn:HP.
  - unfold _get_current_lr in H. rewrite np_broadcast_same in H by done.
    cbn [mbind result_bind] in H. rewrite HP in H. discriminate.
  - rewrite get_current_lr_value in H by done. injection H as <-.
    clear Hlen. induction Hle as [|mn mx mins maxs Hm _ IH]; cbn;
      constructor; [|exact IH].
    by apply half_cosine_bounds.
Qed.

(** [X14]: a base period of 0 makes [get_lr] raise
    [ZeroDivisionError] at every epoch, and a period multiplier of 0
    makes it raise as soon as the epoch is past the first period. *)
Theorem warm_restart_zero_period (self : t) (fuel : nat) :
  (base_period self = 0%Z ->
   get_lr (S fuel) self = Some (Raise ZeroDivisionError))
  /\ (period_mult self = 0%Z ->
      (0 < base_period self)%Z ->
      (base_period self < last_epoch self)%Z ->
      get_lr (S (S fuel)) self = Some (Raise ZeroDivisionError)).
Proof.
  split.
  - intros Hb. unfold get_lr. rewrite Hb. reflexivity.
  - intros Hm Hb He. unfold get_lr. rewrite Hm.
    cbn [restart_loop].
    rewrite (period_nonzero _ (base_period self)) by done.
    destruct (Qlt_le_dec 1 _) as [_|Hle].
    + assert (Qeq_bool (inject_Z (base_period self) * inject_Z 0) 0 = true)
        as ->; [|reflexivity].
      apply Qeq_bool_iff. ring.
    + exfalso. apply (Qle_not_lt _ _ Hle).
      by apply (exceeds_one_iff _ _ (last_epoch self) (base_period self)).
Qed.
End warm_restart_shape.

Section bernoulli_shape.
Import BernoulliLikelihood.
Variable Phi : R -> R.
Hypothesis Phi_monotone : forall x y : R, (x <= y)%R -> (Phi x <= Phi y)%R.

Lemma one_le_sqrt (s2 : R) : (0 <= s2)%R -> (1 <= sqrt (1 + s2))%R.
Proof.
  intros H. rewrite <- sqrt_1 at 1. apply sqrt_le_1_alt. Lra.lra.
Qed.

(** [X15]: for a monotone [Phi] and a variance that is not negative,
    the predicted probability lies between [Phi 0] and [Phi mean]; with
    variance 0 it is [Phi mean]. *)
Theorem bernoulli_variance_tempers (marginals : list (R * R))
    (probs : Tensor) (i : nat) (mu s2 p : R) :
  forward Phi (GaussianRandomVariable marginals)
  = Ok (BernoulliRandomVariable probs) ->
  marginals !! i = Some (mu, s2) ->
  probs !! i = Some p ->
  (0 <= s2)%R ->
  ((0 <= mu)%R -> (Phi 0 <= p <= Phi mu)%R)
  /\ ((mu <= 0)%R -> (Phi mu <= p <= Phi 0)%R)
  /\ (s2 = 0%R -> p = Phi mu).
Proof.
  intros Hf Hi Hp Hs2. cbn in Hf. injection Hf as <-.
  rewrite (link_lookup Phi marginals i mu s2 Hi) in Hp. injection Hp as <-.
  pose proof (one_le_sqrt s2 Hs2) as Hr.
  assert (0 < / sqrt (1 + s2) <= 1)%R as [Hinv0 Hinv1].
  { split; [apply Rinv_0_lt_compat; Lra.lra|].
    rewrite <- Rinv_1 at 2. apply Rinv_le_contravar; Lra.lra. }
  unfold Rdiv. repeat split.
  - apply Phi_monotone. Lra.nra.
  - apply Phi_monotone. Lra.nra.
  - apply Phi_monotone. Lra.nra.
  - apply Phi_monotone. Lra.nra.
  - intros ->. rewrite Rplus_0_r, sqrt_1, Rinv_1. f_equal. Lra.lra.
Qed.
End bernoulli_shape.

Section callback.
Import LRScheduler.

Lemma history_batches_last (earlier : list epoch_record)
    (current : epoch_record) :
  history_batches (earlier ++ [current])%list (-1) = batches current.
Proof.
  unfold history_batches. cbn [Z.ltb Z.compare].
  rewrite length_app. cbn [length].
  replace (Z.to_nat (Z.of_nat (length earlier + 1) + -1)) with (length earlier)
    by lia.
  by rewrite lookup_app_r, Nat.sub_diag.
Qed.

Lemma history_batches_previous (earlier : list epoch_record)
    (previous current : epoch_record) :
  history_batches ((earlier ++ [previous]) ++ [current])%list (-2)
  = batches previous.
Proof.
  unfold history_batches. cbn [Z.ltb Z.compare].
  rewrite !length_app. cbn [length].
  replace (Z.to_nat (Z.of_nat (length earlier + 1 + 1) + -2))
    with (length earlier) by lia.
  rewrite lookup_app_l by (rewrite length_app; cbn; lia).
  by rewrite lookup_app_r, Nat.sub_diag.
Qed.

Lemma get_batch_idx_nonempty (net : Net) :
  history net <> [] ->
  _get_batch_idx net
  = (let epoch := Z.of_nat (length (history net)) - 1 in
     epoch
     * (if 1 <=? epoch
        then Z.of_nat (length (history_batches (history net) (-2)))
        else 0)
     + (Z.of_nat (length (history_batches (history net) (-1))) - 1))%Z.
Proof. unfold _get_batch_idx. by destruct (history net). Qed.

(** [X16]: when every completed epoch recorded [n] batches,
    [_get_batch_idx] is the number of batches recorded so far, minus
    one. *)
Theorem get_batch_idx_counts_batches (net : Net)
    (earlier : list epoch_record) (current : epoch_record) (n : nat) :
  history net = (earlier ++ [current])%list ->
  Forall (fun record => length (batches record) = n) earlier ->
  _get_batch_idx net
  = (Z.of_nat (length earlier) * Z.of_nat n
     + Z.of_nat (length (batches current)) - 1)%Z.
Proof.
  intros Hh Hall.
  rewrite get_batch_idx_nonempty by (rewrite Hh; by destruct earlier).
  rewrite Hh, history_batches_last. cbv zeta.
  destruct earlier as [|r rs _] using rev_ind.
  - cbn. lia.
  - rewrite history_batches_previous.
    apply Forall_app in Hall as [_ Hr].
    inversion Hr as [|? ? Hr' _].
    rewrite Hr', !length_app. cbn [length].
    destruct (Z.leb_spec 1 (Z.of_nat (length rs + 1 + 1) - 1)); lia.
Qed.

Lemma get_batch_idx_lower_bound (net : Net) :
  (-1 <= _get_batch_idx net)%Z
  /\ (history net = [] -> _get_batch_idx net = (-1)%Z).
Proof.
  unfold _get_batch_idx. destruct (history net) as [|r rs]; [done|].
  split; [|done]. cbv zeta.
  assert (0 <= Z.of_nat (length (r :: rs)) - 1)%Z by (cbn [length]; lia).
  destruct (1 <=? _)%Z; nia.
Qed.
End callback.

Section callback_hooks.
Import LRScheduler.

(** [X17]: when [on_train_begin] succeeds the callback holds a
    scheduler whose [last_batch_idx] is the keyword given or else the
    batch index of the history, the optimizer of the net carries the
    schedule's rates at the index after it, and on a net without
    history these are the base rates. *)
Theorem train_begin_resumes_schedule (self self' : t) (net : Net)
    (h h' : store) :
  on_train_begin self net h = (Ok self', h') ->
  exists scheduler opt lrs,
    lr_scheduler_ self' = Some scheduler
    /\ kwargs_ self' = kwargs_ self
    /\ CyclicLR.last_batch_idx scheduler
       = default (_get_batch_idx net) (kw_last_batch_idx (kwargs_ self))
    /\ deref h (optimizer_ net) = PyOptimizer opt
    /\ CyclicLR.get_lr
         (CyclicLR.set_last_batch_idx scheduler
            (CyclicLR.last_batch_idx scheduler + 1)) = Ok lrs
    /\ h' = <[optimizer_ net :=
                PyOptimizer
                  {| param_groups :=
                       CyclicLR.set_lrs (param_groups opt) lrs |}]> h
    /\ (history net = [] -> kw_last_batch_idx (kwargs_ self) = None ->
        Forall2 Qeq lrs (CyclicLR.base_lrs scheduler)).
Proof.
  unfold on_train_begin, mbind, M_bind.
  destruct (_get_scheduler net (kwargs_ self) h) as [[s|e] h1] eqn:Hs;
    [|discriminate].
  unfold mret, M_ret. intros [= <- <-].
  unfold _get_scheduler, CyclicLR_call in Hs.
  assert (default (-1)%Z
            (kw_last_batch_idx
               (if is_None (kw_last_batch_idx (kwargs_ self))
                then {| kw_base_lr := kw_base_lr (kwargs_ self);
                        kw_max_lr := kw_max_lr (kwargs_ self);
                        kw_step_size := kw_step_size (kwargs_ self);
                        kw_mode := kw_mode (kwargs_ self);
                        kw_gamma := kw_gamma (kwargs_ self);
                        kw_scale_fn := kw_scale_fn (kwargs_ self);
                        kw_scale_mode := kw_scale_mode (kwargs_ self);
                        kw_last_batch_idx := Some (_get_batch_idx net) |}
                else kwargs_ self))
          = default (_get_batch_idx net) (kw_last_batch_idx (kwargs_ self)))
    as Hlast
    by (destruct (kw_last_batch_idx (kwargs_ self)) eqn:E; cbn; by rewrite ?E).
  rewrite Hlast in Hs.
  apply init_inv in Hs
    as (opt & lrs & Hd & Hb & Hm & _ & _ & _ & _ & Hl & _ & _ & Hlr & ->).
  exists s, opt, lrs. cbn [lr_scheduler_ kwargs_].
  rewrite Hl. repeat split; try done.
  intros Hh Hkw. rewrite Hkw in Hlr, Hl. cbn [default] in Hlr, Hl.
  assert (_get_batch_idx net = (-1)%Z) as Hidx
    by (unfold _get_batch_idx; by rewrite Hh).
  rewrite Hidx in Hlr.
  assert (CyclicLR.step_size s <> 0%Z) as Hstep.
  { intros Hz. rewrite get_lr_zero_step in Hlr by done. discriminate. }
  destruct (get_lr_at_cycle_start s 0 Hstep) as (lrs' & Hlr' & Hbase);
    [lia|lia| |].
  { apply format_lr_length in Hb, Hm. congruence. }
  change (0 * (2 * CyclicLR.step_size s))%Z with (-1 + 1)%Z in Hlr'.
  rewrite Hlr in Hlr'. by injection Hlr' as <-.
Qed.

(** [X18]: with a cyclic scheduler [on_epoch_begin] changes neither
    the callback nor the store; before [on_train_begin] it raises
    [AttributeError]. *)
Theorem epoch_begin_keeps_rates (self : t) (net : Net) (h : store) :
  (forall scheduler,
      lr_scheduler_ self = Some scheduler ->
      on_epoch_begin self net h = (Ok self, h))
  /\ (lr_scheduler_ self = None ->
      on_epoch_begin self net h
      = (Raise (AttributeError "'NoneType' object has no attribute 'step'"),
         h)).
Proof.
  unfold on_epoch_begin. destruct self as [kw [s|]]; cbn; split; done.
Qed.

(** [X19]: before [on_train_begin], [on_batch_begin] does nothing;
    afterwards, when it succeeds, the optimizer carries the schedule's
    rates at the batch index of the history, which the scheduler now
    stores. *)
Theorem batch_begin_applies_batch_index (self : t) (net : Net) (h : store) :
  (lr_scheduler_ self = None -> on_batch_begin self net h = (Ok self, h))
  /\ (forall scheduler self' h',
        lr_scheduler_ self = Some scheduler ->
        on_batch_begin self net h = (Ok self', h') ->
        exists opt lrs,
          deref h (CyclicLR.optimizer scheduler) = PyOptimizer opt
          /\ CyclicLR.get_lr
               (CyclicLR.set_last_batch_idx scheduler (_get_batch_idx net))
             = Ok lrs
          /\ h' = <[CyclicLR.optimizer scheduler :=
                      PyOptimizer
                        {| param_groups :=
                             CyclicLR.set_lrs (param_groups opt) lrs |}]> h
          /\ lr_scheduler_ self'
             = Some (CyclicLR.set_last_batch_idx scheduler
                       (_get_batch_idx net))).
Proof.
  unfold on_batch_begin. split.
  - by intros ->.
  - intros s self' h' -> . unfold mbind, M_bind.
    destruct (CyclicLR.batch_step s (Some (_get_batch_idx net)) h)
      as [[s'|e] h1] eqn:Hbs; [|discriminate].
    unfold mret, M_ret. intros [= <- <-].
    apply batch_step_inv in Hbs as (opt & lrs & Hd & -> & Hlr & ->).
    by exists opt, lrs.
Qed.
End callback_hooks.

(** ** The further properties on concrete inputs *)

Lemma cyclic_clamp_never_bites_witness :
  (0 <= CyclicLR.position (Scenarios.triangular_at 3))%Q
  /\ (CyclicLR.position (Scenarios.triangular_at 3) <= 1)%Q
  /\ exists lrs,
      CyclicLR.get_lr (Scenarios.triangular_at 3) = Ok lrs
      /\ Forall2 (fun lr bm =>
                    lr == bm.1 + (bm.2 - bm.1)
                          * (1 - CyclicLR.position (Scenarios.triangular_at 3))
                          * 1)%Q
           lrs [((1 # 1000)%Q, (6 # 1000)%Q); ((2 # 1000)%Q, (6 # 1000)%Q)].
Proof.
  apply (cyclic_clamp_never_bites (Scenarios.triangular_at 3) 1%Q).
  - cbn. lia.
  - reflexivity.
Defined.

Lemma triangular_wave_witness :
  exists lrs,
    CyclicLR.get_lr (Scenarios.triangular_at 3) = Ok lrs
    /\ ((3 <= 2 * 4 * (1 - 1) + 4)%Z ->
        Forall2 (fun lr bm =>
                   lr == bm.1 + (bm.2 - bm.1)
                         * (inject_Z (3 - 2 * 4 * (1 - 1)) / inject_Z 4))%Q
          lrs [((1 # 1000)%Q, (6 # 1000)%Q); ((2 # 1000)%Q, (6 # 1000)%Q)])
    /\ ((2 * 4 * (1 - 1) + 4 <= 3)%Z ->
        Forall2 (fun lr bm =>
                   lr == bm.1 + (bm.2 - bm.1)
                         * (inject_Z (2 * 4 * 1 - 3) / inject_Z 4))%Q
          lrs [((1 # 1000)%Q, (6 # 1000)%Q); ((2 # 1000)%Q, (6 # 1000)%Q)]).
Proof.
  apply (triangular_wave (Scenarios.triangular_at 3) 1).
  - constructor.
  - cbn. lia.
  - cbn. lia.
  - cbn. lia.
Defined.

Lemma triangular2_wave_witness :
  exists lrs,
    CyclicLR.get_lr (Scenarios.triangular2_at 13) = Ok lrs
    /\ ((13 <= 2 * 4 * (2 - 1) + 4)%Z ->
        Forall2 (fun lr bm =>
                   lr == bm.1 + (bm.2 - bm.1)
                         * (inject_Z (13 - 2 * 4 * (2 - 1)) / inject_Z 4)
                         / 2 ^ (2 - 1))%Q
          lrs [((1 # 1000)%Q, (6 # 1000)%Q); ((2 # 1000)%Q, (6 # 1000)%Q)])
    /\ ((2 * 4 * (2 - 1) + 4 <= 13)%Z ->
        Forall2 (fun lr bm =>
                   lr == bm.1 + (bm.2 - bm.1)
                         * (inject_Z (2 * 4 * 2 - 13) / inject_Z 4)
                         / 2 ^ (2 - 1))%Q
          lrs [((1 # 1000)%Q, (6 # 1000)%Q); ((2 # 1000)%Q, (6 # 1000)%Q)]).
Proof.
  apply (triangular2_wave (Scenarios.triangular2_at 13) 2).
  - constructor.
  - cbn. lia.
  - cbn. lia.
  - cbn. lia.
Defined.

Lemma cyclic_lr_within_bounds_witness :
  exists lrs,
    CyclicLR.get_lr (Scenarios.exp_range_at 5) = Ok lrs
    /\ Forall2 (fun lr bm => bm.1 <= lr /\ lr <= bm.2)%Q
         lrs [((1 # 1000)%Q, (6 # 1000)%Q); ((2 # 1000)%Q, (6 # 1000)%Q)].
Proof.
  apply (cyclic_lr_within_bounds "exp_range" (Scenarios.exp_range_at 5)).
  - constructor.
  - cbn. lia.
  - cbn. lia.
  - intros _. split; vm_compute; discriminate.
  - repeat constructor; vm_compute; discriminate.
Defined.

Lemma cyclic_init_failure_keeps_store_witness :
  (CyclicLR.__init__ 1%positive (Scalar 1%Q) (Scalar 2%Q) 0 "triangular" 1%Q
     None "cycle" (-1) Examples.a_store).2
  = Examples.a_store.
Proof.
  apply (cyclic_init_failure_keeps_store 1%positive (Scalar 1%Q) (Scalar 2%Q)
           0 "triangular" 1%Q None "cycle" (-1) Examples.a_store
           ZeroDivisionError).
  vm_compute. reflexivity.
Defined.

Lemma cyclic_init_errors_witness :
  CyclicLR.__init__ 2%positive (Scalar 1%Q) (Scalar 2%Q) 4 "triangular" 1%Q
    None "cycle" (-1) Examples.a_store
  = (Raise (TypeError "NoneType is not an Optimizer"), Examples.a_store)
  /\ CyclicLR.__init__ 1%positive (Scalar 1%Q) (Scalar 2%Q) 0 "sawtooth" 1%Q
       None "cycle" (-1) Examples.a_store
     = (Raise (ValueError "mode is invalid and scale_fn is None"),
        Examples.a_store)
  /\ CyclicLR.__init__ 1%positive (Scalar 1%Q) (Scalar 2%Q) 0 "triangular" 1%Q
       None "cycle" (-1) Examples.a_store
     = (Raise ZeroDivisionError, Examples.a_store).
Proof.
  destruct (cyclic_init_errors Examples.a_store 2%positive) as (Htype & _ & _).
  destruct (cyclic_init_errors Examples.a_store 1%positive)
    as (_ & Hmode & Hstep).
  split; [|split].
  - apply (Htype "NoneType"). reflexivity.
  - apply (Hmode Examples.two_groups (Scalar 1%Q) (Scalar 2%Q)
             [(1 * 1)%Q; (1 * 1)%Q] [(2 * 1)%Q; (2 * 1)%Q]);
      [reflexivity|reflexivity|reflexivity|].
    unfold CyclicLR.builtin_modes. rewrite !elem_of_cons, elem_of_nil.
    intros [?|[?|[?|[]]]]; discriminate.
  - apply (Hstep Examples.two_groups (Scalar 1%Q) (Scalar 2%Q)
             [(1 * 1)%Q; (1 * 1)%Q] [(2 * 1)%Q; (2 * 1)%Q]);
      [reflexivity|reflexivity|reflexivity|].
    left. unfold CyclicLR.builtin_modes. rewrite !elem_of_cons. by left.
Defined.

Lemma first_batch_step_repeats_construction_witness :
  CyclicLR.batch_step Examples.constructed_scheduler None Examples.constructed.2
  = (Ok (CyclicLR.set_last_batch_idx Examples.constructed_scheduler (-1 + 1)),
     Examples.constructed.2).
Proof.
  apply (first_batch_step_repeats_construction 1%positive
           (Scalar (1 # 1000)%Q) (Sequence [(6 # 1000)%Q; (1 # 100)%Q]) 2000
           "triangular" 1%Q None "cycle" (-1) Examples.a_store).
  vm_compute. reflexivity.
Defined.

Lemma batch_step_forgets_earlier_steps_witness :
  CyclicLR.batch_step (Scenarios.triangular_at 3) (Some 5%Z)
    (CyclicLR.batch_step (Scenarios.triangular_at 0) (Some 3%Z)
       Examples.a_store).2
  = (Ok (Scenarios.triangular_at 5),
     (CyclicLR.batch_step (Scenarios.triangular_at 0) (Some 5%Z)
        Examples.a_store).2).
Proof.
  apply (batch_step_forgets_earlier_steps (Scenarios.triangular_at 0)
           (Scenarios.triangular_at 3) (Scenarios.triangular_at 5)
           (Some 3%Z) 5 Examples.a_store).
  - vm_compute. reflexivity.
  - vm_compute. reflexivity.
Defined.

Lemma batch_step_frame_witness :
  (forall l' : loc,
      l' <> 1%positive ->
      (CyclicLR.batch_step (Scenarios.triangular_at 0) (Some 3%Z)
         Examples.a_store).2 !! l'
      = Examples.a_store !! l')
  /\ exists opt opt',
      deref Examples.a_store 1%positive = PyOptimizer opt
      /\ deref
           (CyclicLR.batch_step (Scenarios.triangular_at 0) (Some 3%Z)
              Examples.a_store).2 1%positive
         = PyOptimizer opt'
      /\ length (param_groups opt') = length (param_groups opt)
      /\ (forall key : string, key <> "lr" ->
            Forall2 (fun g0 g' : gmap string Q => g' !! key = g0 !! key)
              (param_groups opt) (param_groups opt'))
      /\ Scenarios.triangular_at 3
         = CyclicLR.set_last_batch_idx (Scenarios.triangular_at 0)
             (CyclicLR.last_batch_idx (Scenarios.triangular_at 3)).
Proof.
  apply (batch_step_frame (Scenarios.triangular_at 0)
           (Scenarios.triangular_at 3) (Some 3%Z) Examples.a_store).
  vm_compute. reflexivity.
Defined.

Lemma training_loop_follows_schedule_witness :
  exists opt lrs,
    deref Examples.a_store 1%positive = PyOptimizer opt
    /\ CyclicLR.get_lr
         (CyclicLR.set_last_batch_idx Examples.constructed_scheduler
            (-1 + Z.of_nat 3)) = Ok lrs
    /\ batch_steps 3 Examples.constructed_scheduler Examples.constructed.2
       = (Ok (CyclicLR.set_last_batch_idx Examples.constructed_scheduler
                (-1 + Z.of_nat 3)),
          <[1%positive :=
              PyOptimizer
                {| param_groups :=
                     CyclicLR.set_lrs (param_groups opt) lrs |}]>
            Examples.a_store).
Proof.
  apply (training_loop_follows_schedule 1%positive
           (Scalar (1 # 1000)%Q) (Sequence [(6 # 1000)%Q; (1 # 100)%Q]) 2000
           "triangular" 1%Q None "cycle" (-1) Examples.a_store
           Examples.constructed_scheduler Examples.constructed.2 2).
  - vm_compute. reflexivity.
  - lia.
Defined.

Lemma warm_restart_closed_form_witness :
  WarmRestartLR.get_lr 26 (Scenarios.warm_restart 25)
  = Some (Ok (zip_with
                (fun mn mx =>
                   WarmRestartLR.half_cosine mn mx
                     (inject_Z (25 - WarmRestartLR.period_start 10 2 1))
                     (inject_Z (10 * 2 ^ Z.of_nat 1)))
                [0%R; 1%R] [1%R; 2%R])).
Proof.
  apply (warm_restart_closed_form (Scenarios.warm_restart 25) 1).
  - cbn. lia.
  - cbn. lia.
  - reflexivity.
  - vm_compute. discriminate.
  - vm_compute. discriminate.
  - vm_compute. lia.
Defined.

Lemma warm_restart_period_ends_witness :
  WarmRestartLR.get_lr 12
    (WarmRestartLR.set_last_epoch (Scenarios.warm_restart 0)
       (WarmRestartLR.period_start 10 2 1))
  = Some (Ok [1%R; 2%R])
  /\ WarmRestartLR.get_lr 32
       (WarmRestartLR.set_last_epoch (Scenarios.warm_restart 0)
          (WarmRestartLR.period_start 10 2 1 + 10 * 2 ^ Z.of_nat 1))
     = Some (Ok [0%R; 1%R]).
Proof.
  destruct (warm_restart_period_ends (Scenarios.warm_restart 0) 1)
    as [Hstart Hstop].
  - cbn. lia.
  - cbn. lia.
  - reflexivity.
  - split; [apply Hstart|apply Hstop]; vm_compute; lia.
Defined.

Lemma warm_restart_within_bounds_witness :
  Forall2 (fun lr mm => mm.1 <= lr /\ lr <= mm.2)%R
    (zip_with
       (fun mn mx =>
          WarmRestartLR.half_cosine mn mx
            (inject_Z (25 - WarmRestartLR.period_start 10 2 1))
            (inject_Z (10 * 2 ^ Z.of_nat 1)))
       [0%R; 1%R] [1%R; 2%R])
    [(0%R, 1%R); (1%R, 2%R)].
Proof.
  apply (warm_restart_within_bounds (Scenarios.warm_restart 25) 26).
  - reflexivity.
  - repeat constructor; cbn; Lra.lra.
  - apply (get_lr_in_period (Scenarios.warm_restart 25) 1).
    + cbn. lia.
    + cbn. lia.
    + reflexivity.
    + vm_compute. discriminate.
    + vm_compute. discriminate.
    + vm_compute. lia.
Defined.

Lemma warm_restart_zero_period_witness :
  WarmRestartLR.get_lr 1 Scenarios.no_base_period
  = Some (Raise ZeroDivisionError)
  /\ WarmRestartLR.get_lr 2 Scenarios.no_period_mult
     = Some (Raise ZeroDivisionError).
Proof.
  destruct (warm_restart_zero_period Scenarios.no_base_period 0) as [Hbase _].
  destruct (warm_restart_zero_period Scenarios.no_period_mult 0) as [_ Hmult].
  split.
  - apply Hbase. reflexivity.
  - apply Hmult; cbn; lia.
Defined.

Lemma bernoulli_variance_tempers_witness :
  ((0 <= 2)%R -> (0 <= 2 / sqrt (1 + 0) <= 2)%R)
  /\ ((2 <= 0)%R -> (2 <= 2 / sqrt (1 + 0) <= 0)%R)
  /\ (0%R = 0%R -> (2 / sqrt (1 + 0))%R = 2%R).
Proof.
  apply (bernoulli_variance_tempers (fun x : R => x) (fun x y H => H)
           [(0%R, 3%R); (2%R, 0%R)]
           [(0 / sqrt (1 + 3))%R; (2 / sqrt (1 + 0))%R] 1 2%R 0%R).
  - reflexivity.
  - reflexivity.
  - reflexivity.
  - Lra.lra.
Defined.

Lemma get_batch_idx_counts_batches_witness :
  LRScheduler._get_batch_idx Scenarios.net_in_third_epoch
  = (Z.of_nat 2 * Z.of_nat 4 + Z.of_nat 1 - 1)%Z.
Proof.
  apply (get_batch_idx_counts_batches Scenarios.net_in_third_epoch
           [Scenarios.epoch_of 4; Scenarios.epoch_of 4]
           (Scenarios.epoch_of 1) 4).
  - reflexivity.
  - repeat constructor.
Defined.

Lemma train_begin_resumes_schedule_witness :
  exists scheduler opt lrs,
    LRScheduler.lr_scheduler_ Scenarios.begun.1 = Some scheduler
    /\ LRScheduler.kwargs_ Scenarios.begun.1
       = LRScheduler.kwargs_ Scenarios.callback
    /\ CyclicLR.last_batch_idx scheduler
       = default (LRScheduler._get_batch_idx Scenarios.net_at_start)
           (LRScheduler.kw_last_batch_idx
              (LRScheduler.kwargs_ Scenarios.callback))
    /\ deref Examples.a_store 1%positive = PyOptimizer opt
    /\ CyclicLR.get_lr
         (CyclicLR.set_last_batch_idx scheduler
            (CyclicLR.last_batch_idx scheduler + 1)) = Ok lrs
    /\ Scenarios.begun.2
       = <[1%positive :=
             PyOptimizer
               {| param_groups := CyclicLR.set_lrs (param_groups opt) lrs |}]>
           Examples.a_store
    /\ (@nil LRScheduler.epoch_record = [] ->
        @None Z = None ->
        Forall2 Qeq lrs (CyclicLR.base_lrs scheduler)).
Proof.
  apply (train_begin_resumes_schedule Scenarios.callback Scenarios.begun.1
           Scenarios.net_at_start Examples.a_store Scenarios.begun.2).
  vm_compute. reflexivity.
Defined.

Lemma epoch_begin_keeps_rates_witness :
  LRScheduler.on_epoch_begin Scenarios.begun.1 Scenarios.net_in_third_epoch
    Scenarios.begun.2
  = (Ok Scenarios.begun.1, Scenarios.begun.2)
  /\ LRScheduler.on_epoch_begin Scenarios.callback Scenarios.net_at_start
       Examples.a_store
     = (Raise (AttributeError "'NoneType' object has no attribute 'step'"),
        Examples.a_store).
Proof.
  destruct (epoch_begin_keeps_rates Scenarios.begun.1
              Scenarios.net_in_third_epoch Scenarios.begun.2) as [Hsome _].
  destruct (epoch_begin_keeps_rates Scenarios.callback Scenarios.net_at_start
              Examples.a_store) as [_ Hnone].
  split.
  - eapply Hsome. vm_compute. reflexivity.
  - apply Hnone. reflexivity.
Defined.

Lemma batch_begin_applies_batch_index_witness :
  LRScheduler.on_batch_begin Scenarios.callback Scenarios.net_at_start
    Examples.a_store
  = (Ok Scenarios.callback, Examples.a_store)
  /\ exists scheduler opt lrs,
      LRScheduler.lr_scheduler_ Scenarios.begun.1 = Some scheduler
      /\ deref Scenarios.begun.2 (CyclicLR.optimizer scheduler)
         = PyOptimizer opt
      /\ CyclicLR.get_lr
           (CyclicLR.set_last_batch_idx scheduler
              (LRScheduler._get_batch_idx Scenarios.net_in_third_epoch))
         = Ok lrs
      /\ Scenarios.in_batch.2
         = <[CyclicLR.optimizer scheduler :=
               PyOptimizer
                 {| param_groups :=
                      CyclicLR.set_lrs (param_groups opt) lrs |}]>
             Scenarios.begun.2
      /\ LRScheduler.lr_scheduler_ Scenarios.in_batch.1
         = Some (CyclicLR.set_last_batch_idx scheduler
                   (LRScheduler._get_batch_idx Scenarios.net_in_third_epoch)).
Proof.
  destruct (batch_begin_applies_batch_index Scenarios.callback
              Scenarios.net_at_start Examples.a_store) as [Hnone _].
  destruct (batch_begin_applies_batch_index Scenarios.begun.1
              Scenarios.net_in_third_epoch Scenarios.begun.2) as [_ Hsome].
  split; [apply Hnone; reflexivity|].
  destruct (LRScheduler.lr_scheduler_ Scenarios.begun.1) as [scheduler|] eqn:E;
    [|vm_compute in E; discriminate].
  destruct (Hsome scheduler Scenarios.in_batch.1 Scenarios.in_batch.2 eq_refl)
    as (opt & lrs & H).
  - vm_compute in E. injection E as <-. vm_compute. reflexivity.
  - by exists scheduler, opt, lrs.
Defined.
